(** * my_malloc: a didactic allocator inside a fixed array of doubles

    Shallow embedding of [my_malloc.h] and proofs about the placement
    search, release, pointer tagging and the two printing routines.

    Conventions of the embedding.
    - C [long]/[int]/[intptr_t] values are [Z]; division and remainder
      are the truncating [Z.quot]/[Z.rem] of C.  The indices the code
      computes are bounded by small multiples of [MAX_MEMORY] (array
      accesses are checked, and see [search_body_offset_bound]), so for
      an arena that fits an [int] no signed arithmetic leaves its type.
    - The three static arrays are lists; an access outside an array is
      undefined behaviour in C and is the result [Undefined] here.
    - A pointer into [MEMORY_BUFFER] is represented by its element
      index, i.e. by the value of [(double* )p - &MEMORY_BUFFER[0]].
    - A [double] object is represented by its 64 bit object
      representation (a [Z]); the code never does floating point
      arithmetic, it only stores, reinterprets and prints these objects.
    - [rand()] reads the next element of a tape held in the state,
      [printf] appends to [stdout]. *)

From stdpp Require Import base numbers list strings pretty.
From Stdlib Require Import ZArith Lia.

Local Open Scope Z_scope.

(** ** Program state *)

Record state : Type := mkState {
  MEMORY_BUFFER : list Z;          (* static double MEMORY_BUFFER[MAX_MEMORY]    *)
  MEMORY_USED : list bool;         (* static bool MEMORY_USED[MAX_MEMORY]        *)
  MEMORY_IS_POINTER : list bool;   (* static bool MEMORY_IS_POINTER[MAX_MEMORY]  *)
  rand_tape : nat -> Z;            (* the sequence rand() produces               *)
  rand_pos : nat;                  (* how many numbers were drawn from it        *)
  stdout : string                  (* everything printed so far                  *)
}.

(** Array read [a[i]] and write [a[i] = v] with a C [long] index. *)
Definition rd {A : Type} (a : list A) (i : Z) : option A :=
  if 0 <=? i then a !! Z.to_nat i else None.

Definition wr {A : Type} (a : list A) (i : Z) (v : A) : option (list A) :=
  if (0 <=? i) && (i <? Z.of_nat (length a)) then Some (<[Z.to_nat i := v]> a)
  else None.

(** ** Outcomes and the monad of C statements *)

Inductive result (A : Type) : Type :=
| Returns (a : A) (s : state)       (* normal completion                       *)
| Exits (status : Z) (s : state)    (* the process ended through exit(status)  *)
| Undefined                         (* an out-of-bounds array access            *)
| OutOfFuel.                        (* the loop budget of the model ran out     *)

Arguments Returns {A} a s.
Arguments Exits {A} status s.
Arguments Undefined {A}.
Arguments OutOfFuel {A}.

Definition M (A : Type) : Type := state -> result A.

Definition ret {A : Type} (a : A) : M A := fun s => Returns a s.

Definition bind {A B : Type} (m : M A) (k : A -> M B) : M B :=
  fun s =>
    match m s with
    | Returns a s' => k a s'
    | Exits c s' => Exits c s'
    | Undefined => Undefined
    | OutOfFuel => OutOfFuel
    end.

Declare Scope stmt_scope.
Delimit Scope stmt_scope with stmt.
Notation "'let*' x := m 'in' k" := (bind m (fun x => k))
  (at level 10, x name, m at level 100, k at level 200) : stmt_scope.
Notation "m >> k" := (bind m (fun _ => k))
  (at level 90, right associativity) : stmt_scope.
Local Open Scope stmt_scope.

Definition out_of_fuel {A : Type} : M A := fun _ => OutOfFuel.

Definition exit {A : Type} (status : Z) : M A := fun s => Exits status s.

Definition printf (text : string) : M unit :=
  fun s => Returns tt
    (mkState (MEMORY_BUFFER s) (MEMORY_USED s) (MEMORY_IS_POINTER s)
             (rand_tape s) (rand_pos s) (stdout s +:+ text)).

Definition rand : M Z :=
  fun s => Returns (rand_tape s (rand_pos s))
    (mkState (MEMORY_BUFFER s) (MEMORY_USED s) (MEMORY_IS_POINTER s)
             (rand_tape s) (S (rand_pos s)) (stdout s)).

(** [srand(seed)]: from now on [rand()] yields the sequence of that seed. *)
Definition srand (tape : nat -> Z) : M unit :=
  fun s => Returns tt
    (mkState (MEMORY_BUFFER s) (MEMORY_USED s) (MEMORY_IS_POINTER s)
             tape O (stdout s)).

Definition load_buffer (i : Z) : M Z :=
  fun s => match rd (MEMORY_BUFFER s) i with
           | Some v => Returns v s
           | None => Undefined
           end.

Definition load_used (i : Z) : M bool :=
  fun s => match rd (MEMORY_USED s) i with
           | Some v => Returns v s
           | None => Undefined
           end.

Definition load_is_pointer (i : Z) : M bool :=
  fun s => match rd (MEMORY_IS_POINTER s) i with
           | Some v => Returns v s
           | None => Undefined
           end.

Definition store_buffer (i : Z) (v : Z) : M unit :=
  fun s => match wr (MEMORY_BUFFER s) i v with
           | Some a => Returns tt
               (mkState a (MEMORY_USED s) (MEMORY_IS_POINTER s)
                        (rand_tape s) (rand_pos s) (stdout s))
           | None => Undefined
           end.

Definition store_used (i : Z) (v : bool) : M unit :=
  fun s => match wr (MEMORY_USED s) i v with
           | Some a => Returns tt
               (mkState (MEMORY_BUFFER s) a (MEMORY_IS_POINTER s)
                        (rand_tape s) (rand_pos s) (stdout s))
           | None => Undefined
           end.

Definition store_is_pointer (i : Z) (v : bool) : M unit :=
  fun s => match wr (MEMORY_IS_POINTER s) i v with
           | Some a => Returns tt
               (mkState (MEMORY_BUFFER s) (MEMORY_USED s) a
                        (rand_tape s) (rand_pos s) (stdout s))
           | None => Undefined
           end.

(** ** Text helpers for the printf conversions *)

Definition newline : string := String (Ascii.ascii_of_nat 10) EmptyString.

Fixpoint spaces (k : nat) : string :=
  match k with
  | O => EmptyString
  | S k' => " " +:+ spaces k'
  end.

(** [%wd] / [%wld]: decimal, right aligned in a field of [w] characters. *)
Definition fmt_d (w : nat) (z : Z) : string :=
  let digits := pretty z in
  spaces (w - String.length digits) +:+ digits.

(** ** The C functions *)

Section MyMalloc.

(** [#define MAX_MEMORY 450] unless the including file defines it. *)
Variable MAX_MEMORY : Z.

(** [UCHAR_MAX] of <limits.h>. *)
Definition UCHAR_MAX : Z := 255.

(** double_rand, lines 76-88: eight bytes [rand() % UCHAR_MAX] are
    written into the object representation of the result. *)
Fixpoint double_rand_loop (cnt : nat) (i : Z) (resultBuff : Z) : M Z :=
  match cnt with
  | O => ret resultBuff
  | S cnt' =>
      let* r := rand in
      double_rand_loop cnt' (i + 1)
        (resultBuff + Z.shiftl (Z.rem r UCHAR_MAX) (8 * i))
  end.

Definition double_rand : M Z := double_rand_loop 8 0 0.

(** init_my_malloc, lines 90-98.  [seeded] is the sequence selected by
    [srand(time(NULL))]. *)
Fixpoint init_loop (cnt : nat) (i : Z) : M unit :=
  match cnt with
  | O => ret tt
  | S cnt' =>
      store_used i false >>
      let* v := double_rand in
      store_buffer i v >>
      init_loop cnt' (i + 1)
  end.

Definition init_my_malloc (seeded : nat -> Z) : M unit :=
  srand seeded >> init_loop (Z.to_nat MAX_MEMORY) 0.

(** Inner [for] loop of my_malloc, lines 118-127.  [Some i] is the
    counter at the [break]; [None] means the loop ran to its end and
    [found_free_space] is still true. *)
Fixpoint window_loop (cnt : nat) (start_address i : Z) : M (option Z) :=
  match cnt with
  | O => ret None
  | S cnt' =>
      let end_address := start_address + i in
      if MAX_MEMORY <=? end_address then ret (Some i)
      else
        let* u := load_used end_address in
        if u then ret (Some i)
        else window_loop cnt' start_address (i + 1)
  end.

(** Marking loop, lines 131-135. *)
Fixpoint mark_loop (cnt : nat) (start_address i : Z) : M unit :=
  match cnt with
  | O => ret tt
  | S cnt' =>
      store_used (start_address + i) true >>
      store_is_pointer (start_address + i) false >>
      mark_loop cnt' start_address (i + 1)
  end.

(** One pass through the body of the [while] loop, lines 110-137. *)
Inductive pass : Type :=
| Continue (offset : Z)      (* go round again with this offset *)
| Return (ptr : Z).          (* [return &MEMORY_BUFFER[ptr]]     *)

Definition search_body (n search_start_address offset : Z) : M pass :=
  let start_address := Z.rem (search_start_address + offset) MAX_MEMORY in
  let* u := load_used start_address in
  if u then ret (Continue (offset + 1))
  else
    let* r := window_loop (Z.to_nat (n + 2)) start_address 0 in
    match r with
    | Some i => ret (Continue (offset + (i + 1)))
    | None =>
        mark_loop (Z.to_nat n) start_address 1 >>
        ret (Return (start_address + 1))
    end.

(** The [while] loop with what follows it, lines 108-141. *)
Fixpoint search_loop (fuel : nat) (n search_start_address offset : Z) : M Z :=
  if offset <? MAX_MEMORY then
    match fuel with
    | O => out_of_fuel
    | S fuel' =>
        let* p := search_body n search_start_address offset in
        match p with
        | Continue offset' => search_loop fuel' n search_start_address offset'
        | Return ptr => ret ptr
        end
    end
  else
    printf ("Out of memory!" +:+ newline) >> exit 1.

(** my_malloc, lines 100-142. *)
Definition my_malloc (n : Z) : M Z :=
  let n := Z.quot (n - 1) 8 + 1 in
  let* r := rand in
  let search_start_address := Z.rem r MAX_MEMORY in
  search_loop (Z.to_nat MAX_MEMORY) n search_start_address 0.

(** set_print_as_pointer, lines 144-149. *)
Fixpoint tag_loop (cnt : nat) (offset i : Z) : M unit :=
  match cnt with
  | O => ret tt
  | S cnt' =>
      store_is_pointer (offset + i) true >>
      tag_loop cnt' offset (i + 1)
  end.

Definition set_print_as_pointer (ptr n : Z) : M unit :=
  let offset := ptr in
  tag_loop (Z.to_nat n) offset 0.

(** my_free, lines 151-159. *)
Fixpoint free_loop (fuel : nat) (address : Z) : M unit :=
  if address <? MAX_MEMORY then
    let* u := load_used address in
    if u then
      match fuel with
      | O => out_of_fuel
      | S fuel' =>
          store_used address false >>
          free_loop fuel' (address + 1)
      end
    else ret tt
  else ret tt.

Definition my_free (ptr : Z) : M unit :=
  let address := ptr in
  free_loop (Z.to_nat (MAX_MEMORY - address)) address.

(** print_memory_used, lines 161-180. *)
Definition cols : Z := 25.

Fixpoint print_used_loop (cnt : nat) (i : Z) : M unit :=
  match cnt with
  | O => ret tt
  | S cnt' =>
      (if Z.rem i cols =? 0
       then printf (newline +:+ fmt_d 6 i +:+ ": ") else ret tt) >>
      (let* u := load_used i in
       if u then
         let* p := load_is_pointer i in
         if p then printf "p" else printf "x"
       else printf ".") >>
      print_used_loop cnt' (i + 1)
  end.

Definition print_memory_used : M unit :=
  printf "Current memory usage:" >>
  print_used_loop (Z.to_nat MAX_MEMORY) 0 >>
  printf newline.

(** print_memory_value, lines 182-205.  [fmt_g v] is the text printf
    produces for [%5.2g] and the double whose representation is [v];
    [MEMORY_BUFFER_addr] is the address of [MEMORY_BUFFER[0]]. *)
Variable fmt_g : Z -> string.
Variable MEMORY_BUFFER_addr : Z.

Fixpoint print_value_loop (cnt : nat) (i : Z) : M unit :=
  match cnt with
  | O => ret tt
  | S cnt' =>
      (if Z.rem i cols =? 0
       then printf (newline +:+ fmt_d 6 i +:+ ":") else ret tt) >>
      (let* u := load_used i in
       if u then
         let* p := load_is_pointer i in
         if p then
           let* ppMemD := load_buffer i in
           printf (" " +:+ fmt_d 5 (Z.quot (ppMemD - MEMORY_BUFFER_addr) 8))
         else
           let* v := load_buffer i in
           printf (" " +:+ fmt_g v)
       else printf "      ") >>
      print_value_loop cnt' (i + 1)
  end.

Definition print_memory_value : M unit :=
  printf "Current memory values:" >>
  print_value_loop (Z.to_nat MAX_MEMORY) 0 >>
  printf newline.

End MyMalloc.

(** The arrays as the C runtime provides them at program start. *)
Definition startup (MAX_MEMORY : Z) (tape : nat -> Z) : state :=
  mkState (replicate (Z.to_nat MAX_MEMORY) 0)
          (replicate (Z.to_nat MAX_MEMORY) false)
          (replicate (Z.to_nat MAX_MEMORY) false)
          tape O EmptyString.


(** ** Vocabulary of the statements *)

(** The three arrays have [MAX_MEMORY] elements, [MAX_MEMORY] is a legal
    array size, and [rand()] yields non-negative numbers. *)
Definition well_formed (MAX_MEMORY : Z) (s : state) : Prop :=
  0 < MAX_MEMORY /\
  length (MEMORY_BUFFER s) = Z.to_nat MAX_MEMORY /\
  length (MEMORY_USED s) = Z.to_nat MAX_MEMORY /\
  length (MEMORY_IS_POINTER s) = Z.to_nat MAX_MEMORY /\
  (forall k, 0 <= rand_tape s k).

(** [a'] is [a] with the value [v] written to every index in [[lo, hi)]. *)
Definition updated_on (a a' : list bool) (lo hi : Z) (v : bool) : Prop :=
  length a' = length a /\
  (forall j, lo <= j < hi -> rd a' j = Some v) /\
  (forall j, ~ (lo <= j < hi) -> rd a' j = rd a j).

(** The fields an operation on the flags leaves alone. *)
Definition same_rest (s s' : state) : Prop :=
  MEMORY_BUFFER s' = MEMORY_BUFFER s /\
  rand_tape s' = rand_tape s /\
  rand_pos s' = rand_pos s /\
  stdout s' = stdout s.

(** The slot count my_malloc derives from the byte count. *)
Definition slots_of (size : Z) : Z := Z.quot (size - 1) 8 + 1.

(** What the window test of my_malloc checks at [start]: the [n+2] slots
    from [start] on lie inside the arena and are free. *)
Definition window_free (MAX_MEMORY : Z) (used : list bool) (start n : Z) : Prop :=
  forall i, 0 <= i < n + 2 ->
    start + i < MAX_MEMORY /\ rd used (start + i) = Some false.

(** The acceptance condition with a trailing slot that may lie outside
    the arena: [start] free, [start+1 .. start+n] inside the arena and
    free, [start+n+1] free or out of bounds. *)
Definition accepts_with_open_end (MAX_MEMORY : Z) (used : list bool)
    (start n : Z) : Prop :=
  rd used start = Some false /\
  (forall i, 1 <= i <= n ->
     start + i < MAX_MEMORY /\ rd used (start + i) = Some false) /\
  (MAX_MEMORY <= start + n + 1 \/ rd used (start + n + 1) = Some false).

(** The text my_malloc prints before it gives up. *)
Definition out_of_memory_text : string := "Out of memory!" +:+ newline.

(** [s'] is [s] after a successful allocation of [n] slots behind the
    guard slot [start]. *)
Definition allocated (s s' : state) (start n : Z) : Prop :=
  same_rest s s' /\
  updated_on (MEMORY_USED s) (MEMORY_USED s') (start + 1) (start + 1 + n) true /\
  updated_on (MEMORY_IS_POINTER s) (MEMORY_IS_POINTER s')
             (start + 1) (start + 1 + n) false.

(** [s'] is [s] after the out-of-memory message. *)
Definition gave_up (s s' : state) : Prop :=
  MEMORY_BUFFER s' = MEMORY_BUFFER s /\
  MEMORY_USED s' = MEMORY_USED s /\
  MEMORY_IS_POINTER s' = MEMORY_IS_POINTER s /\
  rand_tape s' = rand_tape s /\
  rand_pos s' = rand_pos s /\
  stdout s' = stdout s +:+ out_of_memory_text.

(** [t] after [text] has been printed. *)
Definition emit (t : state) (text : string) : state :=
  mkState (MEMORY_BUFFER t) (MEMORY_USED t) (MEMORY_IS_POINTER t)
          (rand_tape t) (rand_pos t) (stdout t +:+ text).

(** [t] holds the same three arrays as [s]. *)
Definition same_arrays (s t : state) : Prop :=
  MEMORY_BUFFER t = MEMORY_BUFFER s /\
  MEMORY_USED t = MEMORY_USED s /\
  MEMORY_IS_POINTER t = MEMORY_IS_POINTER s.

(** The character print_memory_used writes for a slot. *)
Definition used_mark (u p : bool) : string :=
  if u then (if p then "p" else "x") else ".".

(** The field print_memory_value writes for a slot. *)
Definition value_field (fmt_g : Z -> string) (MEMORY_BUFFER_addr : Z)
    (u p : bool) (v : Z) : string :=
  if u then
    if p then " " +:+ fmt_d 5 (Z.quot (v - MEMORY_BUFFER_addr) 8)
    else " " +:+ fmt_g v
  else "      ".

(** The number whose base-256 digits, lowest first, are the [cnt] bytes
    [rand() % UCHAR_MAX] that the tape yields from position [pos] on. *)
Fixpoint bytes_value (cnt : nat) (tape : nat -> Z) (pos : nat) : Z :=
  match cnt with
  | O => 0
  | S cnt' => Z.rem (tape pos) UCHAR_MAX + 256 * bytes_value cnt' tape (S pos)
  end.

(** No slot of the arena is used. *)
Definition all_free (MAX_MEMORY : Z) (s : state) : Prop :=
  forall i, 0 <= i < MAX_MEMORY -> rd (MEMORY_USED s) i = Some false.

(** The first and the last slot of the arena are free. *)
Definition ends_free (MAX_MEMORY : Z) (s : state) : Prop :=
  rd (MEMORY_USED s) 0 = Some false /\
  rd (MEMORY_USED s) (MAX_MEMORY - 1) = Some false.

(** [t] has the same used flags as [s] and, on the used slots, the same
    pointer tags and stored values. *)
Definition same_used_slots (s t : state) : Prop :=
  MEMORY_USED t = MEMORY_USED s /\
  forall i, rd (MEMORY_USED s) i = Some true ->
    rd (MEMORY_IS_POINTER t) i = rd (MEMORY_IS_POINTER s) i /\
    rd (MEMORY_BUFFER t) i = rd (MEMORY_BUFFER s) i.

(** [allocated10] with another value and a stale tag in the free slot 7. *)
Definition allocated10_stale : state :=
  mkState (<[7%nat := 42]> (replicate 10 0))
          [false; false; false; true; true; true; false; false; false; false]
          (<[7%nat := true]> (replicate 10 false)) (fun _ => 2) 1 EmptyString.

(** How many slots are marked used. *)
Fixpoint count_used (used : list bool) : Z :=
  match used with
  | [] => 0
  | b :: rest => (if b then 1 else 0) + count_used rest
  end.

(** A client program as the sequence of the calls it makes; handles are
    the slot indices the client passes. *)
Inductive call : Type :=
| CallInit (seeded : nat -> Z)
| CallMalloc (size : Z)
| CallSetPointer (ptr n : Z)
| CallFree (ptr : Z)
| CallPrintUsed
| CallPrintValue.

Definition run_call (MAX_MEMORY : Z) (fmt_g : Z -> string)
    (MEMORY_BUFFER_addr : Z) (c : call) : M unit :=
  match c with
  | CallInit seeded => init_my_malloc MAX_MEMORY seeded
  | CallMalloc size => let* _h := my_malloc MAX_MEMORY size in ret tt
  | CallSetPointer ptr n => set_print_as_pointer ptr n
  | CallFree ptr => my_free MAX_MEMORY ptr
  | CallPrintUsed => print_memory_used MAX_MEMORY
  | CallPrintValue => print_memory_value MAX_MEMORY fmt_g MEMORY_BUFFER_addr
  end.

Fixpoint run_calls (MAX_MEMORY : Z) (fmt_g : Z -> string)
    (MEMORY_BUFFER_addr : Z) (cs : list call) : M unit :=
  match cs with
  | [] => ret tt
  | c :: cs' =>
      run_call MAX_MEMORY fmt_g MEMORY_BUFFER_addr c >>
      run_calls MAX_MEMORY fmt_g MEMORY_BUFFER_addr cs'
  end.

(** The tapes a client seeds yield non-negative numbers, as [rand()] does. *)
Definition call_ok (c : call) : Prop :=
  match c with
  | CallInit seeded => forall k, 0 <= seeded k
  | _ => True
  end.

(** ** Concrete arenas used to exercise the theorems *)

(** A fresh arena of the default size whose [rand()] always yields [r]. *)
Definition fresh450 (r : Z) : state := startup 450 (fun _ => r).

(** The ten-slot arena of the usage example, [rand()] always yielding 2. *)
Definition fresh10 : state := startup 10 (fun _ => 2).

(** [fresh10] after [my_malloc(24)]: slots 3, 4, 5 behind the guard 2. *)
Definition allocated10 : state :=
  mkState (replicate 10 0)
          [false; false; false; true; true; true; false; false; false; false]
          (replicate 10 false) (fun _ => 2) 1 EmptyString.

(** ** Arrays *)

Lemma rd_Some_bounds {A : Type} (a : list A) (i : Z) (v : A) :
  rd a i = Some v -> 0 <= i < Z.of_nat (length a).
Proof.
  unfold rd. destruct (0 <=? i) eqn:E; [|discriminate].
  intros H. apply lookup_lt_Some in H. lia.
Qed.

Lemma rd_in_bounds {A : Type} (a : list A) (i : Z) :
  0 <= i < Z.of_nat (length a) -> exists v, rd a i = Some v.
Proof.
  intros H. unfold rd.
  destruct (0 <=? i) eqn:E; [|lia].
  destruct (lookup_lt_is_Some_2 a (Z.to_nat i)) as [v Hv]; [lia|].
  exists v. exact Hv.
Qed.

Lemma rd_ext {A : Type} (a b : list A) :
  (forall i, rd a i = rd b i) -> a = b.
Proof.
  intros H. apply list_eq. intros k.
  specialize (H (Z.of_nat k)). unfold rd in H.
  destruct (Z.leb_spec 0 (Z.of_nat k)); [|lia].
  rewrite Nat2Z.id in H. exact H.
Qed.

Lemma wr_in_bounds {A : Type} (a : list A) (i : Z) (v : A) :
  0 <= i < Z.of_nat (length a) -> wr a i v = Some (<[Z.to_nat i := v]> a).
Proof.
  intros H. unfold wr.
  destruct (0 <=? i) eqn:E1; [|lia].
  destruct (i <? Z.of_nat (length a)) eqn:E2; [reflexivity|lia].
Qed.

Lemma wr_Some_bounds {A : Type} (a a' : list A) (i : Z) (v : A) :
  wr a i v = Some a' ->
  0 <= i < Z.of_nat (length a) /\ a' = <[Z.to_nat i := v]> a.
Proof.
  unfold wr.
  destruct (0 <=? i) eqn:E1; destruct (i <? Z.of_nat (length a)) eqn:E2;
    simpl; intros H; try discriminate.
  injection H as <-. split; [lia|reflexivity].
Qed.

Lemma wr_length {A : Type} (a a' : list A) (i : Z) (v : A) :
  wr a i v = Some a' -> length a' = length a.
Proof.
  intros H. apply wr_Some_bounds in H as [_ ->]. apply length_insert.
Qed.

Lemma rd_wr_same {A : Type} (a a' : list A) (i : Z) (v : A) :
  wr a i v = Some a' -> rd a' i = Some v.
Proof.
  intros H. apply wr_Some_bounds in H as [Hb ->]. unfold rd.
  destruct (0 <=? i) eqn:E; [|lia].
  apply list_lookup_insert_eq. lia.
Qed.

Lemma rd_wr_other {A : Type} (a a' : list A) (i j : Z) (v : A) :
  wr a i v = Some a' -> j <> i -> rd a' j = rd a j.
Proof.
  intros H Hne. apply wr_Some_bounds in H as [Hb ->]. unfold rd.
  destruct (0 <=? j) eqn:E; [|reflexivity].
  apply list_lookup_insert_ne. lia.
Qed.

Lemma updated_on_refl (a : list bool) (lo : Z) (v : bool) :
  updated_on a a lo lo v.
Proof.
  split; [reflexivity|]. split; [intros j Hj; lia|reflexivity].
Qed.

Lemma updated_on_wr (a a' : list bool) (i : Z) (v : bool) :
  wr a i v = Some a' -> updated_on a a' i (i + 1) v.
Proof.
  intros H. split; [eapply wr_length; eauto|]. split.
  - intros j Hj. assert (j = i) as -> by lia. eapply rd_wr_same; eauto.
  - intros j Hj. eapply rd_wr_other; eauto. lia.
Qed.

Lemma updated_on_trans (a b c : list bool) (lo mid hi : Z) (v : bool) :
  lo <= mid <= hi ->
  updated_on a b lo mid v -> updated_on b c mid hi v ->
  updated_on a c lo hi v.
Proof.
  intros Hr (L1 & I1 & O1) (L2 & I2 & O2). split; [congruence|]. split.
  - intros j Hj. destruct (Z_lt_ge_dec j mid).
    + rewrite O2 by lia. apply I1. lia.
    + apply I2. lia.
  - intros j Hj. rewrite O2 by lia. apply O1. lia.
Qed.

Lemma updated_on_empty (a a' : list bool) (lo hi : Z) (v : bool) :
  hi <= lo -> updated_on a a' lo hi v -> a' = a.
Proof.
  intros Hr (_ & _ & O). apply rd_ext. intros i. apply O. lia.
Qed.

Lemma updated_on_same_range (a a' : list bool) (lo hi hi' : Z) (v : bool) :
  (forall j, lo <= j < hi <-> lo <= j < hi') ->
  updated_on a a' lo hi v -> updated_on a a' lo hi' v.
Proof.
  intros E (L & I & O). split; [exact L|]. split.
  - intros j Hj. apply I. apply E. exact Hj.
  - intros j Hj. apply O. rewrite E. exact Hj.
Qed.

(** Writing back the old values undoes an update. *)
Lemma updated_on_undo (a b c : list bool) (lo hi : Z) (v w : bool) :
  (forall j, lo <= j < hi -> rd a j = Some w) ->
  updated_on a b lo hi v -> updated_on b c lo hi w -> c = a.
Proof.
  intros Ha (L1 & I1 & O1) (L2 & I2 & O2). apply rd_ext. intros j.
  destruct (Z_le_gt_dec lo j); [destruct (Z_lt_ge_dec j hi)|].
  - rewrite I2, Ha by lia. reflexivity.
  - rewrite O2, O1 by lia. reflexivity.
  - rewrite O2, O1 by lia. reflexivity.
Qed.

(** ** Sequencing *)

Lemma bind_returns {A B : Type} (m : M A) (k : A -> M B) s a s1 :
  m s = Returns a s1 -> bind m k s = k a s1.
Proof. intros H. unfold bind. rewrite H. reflexivity. Qed.

Lemma load_used_returns (s : state) (i : Z) (v : bool) :
  rd (MEMORY_USED s) i = Some v -> load_used i s = Returns v s.
Proof. intros H. unfold load_used. rewrite H. reflexivity. Qed.

Lemma load_is_pointer_returns (s : state) (i : Z) (v : bool) :
  rd (MEMORY_IS_POINTER s) i = Some v -> load_is_pointer i s = Returns v s.
Proof. intros H. unfold load_is_pointer. rewrite H. reflexivity. Qed.

Lemma load_buffer_returns (s : state) (i : Z) (v : Z) :
  rd (MEMORY_BUFFER s) i = Some v -> load_buffer i s = Returns v s.
Proof. intros H. unfold load_buffer. rewrite H. reflexivity. Qed.

Lemma same_rest_refl (s : state) : same_rest s s.
Proof. repeat split. Qed.

Lemma same_rest_trans (s1 s2 s3 : state) :
  same_rest s1 s2 -> same_rest s2 s3 -> same_rest s1 s3.
Proof.
  intros (A1 & B1 & C1 & D1) (A2 & B2 & C2 & D2).
  repeat split; congruence.
Qed.

Lemma state_eq (s s' : state) :
  same_rest s s' ->
  MEMORY_USED s' = MEMORY_USED s ->
  MEMORY_IS_POINTER s' = MEMORY_IS_POINTER s ->
  s' = s.
Proof.
  destruct s, s'. unfold same_rest. simpl.
  intros (-> & -> & -> & ->) -> ->. reflexivity.
Qed.

Lemma store_used_returns (s : state) (i : Z) (v : bool) :
  0 <= i < Z.of_nat (length (MEMORY_USED s)) ->
  exists s', store_used i v s = Returns tt s' /\
    same_rest s s' /\
    MEMORY_IS_POINTER s' = MEMORY_IS_POINTER s /\
    updated_on (MEMORY_USED s) (MEMORY_USED s') i (i + 1) v.
Proof.
  intros H. unfold store_used.
  pose proof (wr_in_bounds (MEMORY_USED s) i v H) as E. rewrite E.
  eexists. split; [reflexivity|]. simpl.
  split; [unfold same_rest; simpl; auto|]. split; [reflexivity|].
  apply updated_on_wr. exact E.
Qed.

Lemma store_is_pointer_returns (s : state) (i : Z) (v : bool) :
  0 <= i < Z.of_nat (length (MEMORY_IS_POINTER s)) ->
  exists s', store_is_pointer i v s = Returns tt s' /\
    same_rest s s' /\
    MEMORY_USED s' = MEMORY_USED s /\
    updated_on (MEMORY_IS_POINTER s) (MEMORY_IS_POINTER s') i (i + 1) v.
Proof.
  intros H. unfold store_is_pointer.
  pose proof (wr_in_bounds (MEMORY_IS_POINTER s) i v H) as E. rewrite E.
  eexists. split; [reflexivity|]. simpl.
  split; [unfold same_rest; simpl; auto|]. split; [reflexivity|].
  apply updated_on_wr. exact E.
Qed.

(** ** The loops of my_malloc *)

Section Loops.

Variable MAX_MEMORY : Z.

(** The window test reads only, stays inside the array, and breaks at the
    first slot that is outside the arena or used. *)
Lemma window_loop_spec (cnt : nat) :
  forall (start i : Z) (s : state),
    0 <= start + i ->
    length (MEMORY_USED s) = Z.to_nat MAX_MEMORY ->
    (exists k, window_loop MAX_MEMORY cnt start i s = Returns (Some k) s /\
       i <= k < i + Z.of_nat cnt /\
       (MAX_MEMORY <= start + k \/ rd (MEMORY_USED s) (start + k) = Some true) /\
       (forall j, i <= j < k ->
          start + j < MAX_MEMORY /\ rd (MEMORY_USED s) (start + j) = Some false))
    \/
    (window_loop MAX_MEMORY cnt start i s = Returns None s /\
       (forall j, i <= j < i + Z.of_nat cnt ->
          start + j < MAX_MEMORY /\ rd (MEMORY_USED s) (start + j) = Some false)).
Proof.
  induction cnt as [|cnt IH]; intros start i s Hpos Hlen.
  - right. split; [reflexivity|]. intros j Hj. lia.
  - simpl. destruct (Z.leb_spec MAX_MEMORY (start + i)) as [Hge|Hlt].
    + left. exists i. split; [reflexivity|].
      split; [lia|]. split; [left; exact Hge|]. intros j Hj. lia.
    + destruct (rd_in_bounds (MEMORY_USED s) (start + i)) as [u Hu]; [lia|].
      rewrite (bind_returns _ _ _ _ _ (load_used_returns s _ _ Hu)).
      destruct u.
      * left. exists i. split; [reflexivity|].
        split; [lia|]. split; [right; exact Hu|]. intros j Hj. lia.
      * destruct (IH start (i + 1) s) as [(k & E & Hk & Hstop & Hfree)|(E & Hfree)];
          [lia|exact Hlen| |].
        -- left. exists k. split; [exact E|]. split; [lia|].
           split; [exact Hstop|]. intros j Hj.
           destruct (Z.eq_dec j i) as [->|Hne]; [split; [lia|exact Hu]|].
           apply Hfree. lia.
        -- right. split; [exact E|]. intros j Hj.
           destruct (Z.eq_dec j i) as [->|Hne]; [split; [lia|exact Hu]|].
           apply Hfree. lia.
Qed.

(** The marking loop sets [used] and clears [is_pointer] on the slots
    [start+i .. start+i+cnt-1], provided they are inside the arrays. *)
Lemma mark_loop_spec (cnt : nat) :
  forall (start i : Z) (s : state),
    0 <= start + i ->
    start + i + Z.of_nat cnt <= Z.of_nat (length (MEMORY_USED s)) ->
    length (MEMORY_IS_POINTER s) = length (MEMORY_USED s) ->
    exists s', mark_loop cnt start i s = Returns tt s' /\
      same_rest s s' /\
      updated_on (MEMORY_USED s) (MEMORY_USED s')
                 (start + i) (start + i + Z.of_nat cnt) true /\
      updated_on (MEMORY_IS_POINTER s) (MEMORY_IS_POINTER s')
                 (start + i) (start + i + Z.of_nat cnt) false.
Proof.
  induction cnt as [|cnt IH]; intros start i s Hpos Hhi Hlen.
  - exists s. split; [reflexivity|]. split; [apply same_rest_refl|].
    rewrite Z.add_0_r. split; apply updated_on_refl.
  - simpl.
    destruct (store_used_returns s (start + i) true) as (s1 & E1 & R1 & P1 & U1);
      [lia|].
    rewrite (bind_returns _ _ _ _ _ E1).
    destruct (store_is_pointer_returns s1 (start + i) false)
      as (s2 & E2 & R2 & U2 & P2).
    { rewrite P1, Hlen. lia. }
    rewrite (bind_returns _ _ _ _ _ E2).
    assert (L1 : length (MEMORY_USED s2) = length (MEMORY_USED s)).
    { rewrite U2. apply U1. }
    assert (L2 : length (MEMORY_IS_POINTER s2) = length (MEMORY_IS_POINTER s)).
    { destruct P2 as [L _]. rewrite L, P1. reflexivity. }
    destruct (IH start (i + 1) s2) as (s3 & E3 & R3 & U3 & P3);
      [lia|rewrite L1; lia|congruence|].
    exists s3. split; [exact E3|].
    split; [eauto using same_rest_trans|].
    replace (start + i + Z.of_nat (S cnt))
      with (start + (i + 1) + Z.of_nat cnt) by lia.
    split.
    + apply updated_on_trans with (b := MEMORY_USED s2) (mid := start + (i + 1));
        [lia| |exact U3].
      rewrite U2. replace (start + (i + 1)) with (start + i + 1) by lia. exact U1.
    + apply updated_on_trans with (b := MEMORY_IS_POINTER s2) (mid := start + (i + 1));
        [lia| |exact P3].
      rewrite <- P1. replace (start + (i + 1)) with (start + i + 1) by lia. exact P2.
Qed.

End Loops.

(** ** The placement search *)

Section Search.

Variable MAX_MEMORY : Z.
Hypothesis MAX_MEMORY_pos : 0 < MAX_MEMORY.

Lemma search_body_spec (n search_start_address offset : Z) (s : state) :
  0 <= search_start_address -> 0 <= offset ->
  length (MEMORY_USED s) = Z.to_nat MAX_MEMORY ->
  length (MEMORY_IS_POINTER s) = Z.to_nat MAX_MEMORY ->
  let start := Z.rem (search_start_address + offset) MAX_MEMORY in
  (exists offset',
     search_body MAX_MEMORY n search_start_address offset s
       = Returns (Continue offset') s /\
     offset < offset' /\
     (-2 < n -> ~ window_free MAX_MEMORY (MEMORY_USED s) start n))
  \/
  (exists s',
     search_body MAX_MEMORY n search_start_address offset s
       = Returns (Return (start + 1)) s' /\
     rd (MEMORY_USED s) start = Some false /\
     window_free MAX_MEMORY (MEMORY_USED s) start n /\
     allocated s s' start n).
Proof.
  intros Hssa Hoff LU LP start.
  assert (Hstart : 0 <= start < MAX_MEMORY).
  { unfold start. apply Z.rem_bound_pos; lia. }
  unfold search_body. fold start.
  destruct (rd_in_bounds (MEMORY_USED s) start) as [u Hu]; [lia|].
  rewrite (bind_returns _ _ _ _ _ (load_used_returns s _ _ Hu)).
  destruct u.
  - left. exists (offset + 1). split; [reflexivity|]. split; [lia|].
    intros Hn W. destruct (W 0) as [_ W0]; [lia|].
    rewrite Z.add_0_r in W0. congruence.
  - destruct (window_loop_spec MAX_MEMORY (Z.to_nat (n + 2)) start 0 s)
      as [(k & E & Hk & Hstop & _)|(E & Hfree)]; [lia|exact LU| |].
    + rewrite (bind_returns _ _ _ _ _ E).
      left. exists (offset + (k + 1)). split; [reflexivity|]. split; [lia|].
      intros Hn W. destruct (W k) as [W1 W2]; [lia|].
      destruct Hstop as [Hstop|Hstop]; [lia|congruence].
    + rewrite (bind_returns _ _ _ _ _ E).
      assert (W : window_free MAX_MEMORY (MEMORY_USED s) start n).
      { intros i Hi. apply Hfree. lia. }
      destruct (mark_loop_spec (Z.to_nat n) start 1 s) as (s' & E' & R & U & P);
        [lia| |congruence|].
      { destruct (Z_le_gt_dec n 0) as [Hn|Hn]; [lia|].
        destruct (W n) as [W1 _]; lia. }
      rewrite (bind_returns _ _ _ _ _ E').
      right. exists s'. split; [reflexivity|]. split; [exact Hu|].
      split; [exact W|]. split; [exact R|].
      split; (eapply updated_on_same_range; [|eassumption]); intros j; lia.
Qed.

(** A pass never moves the offset by more than the arena size plus one,
    so inside the loop the offset stays below twice [MAX_MEMORY]: the
    [long] arithmetic of the search cannot overflow. *)
Lemma search_body_offset_bound (n search_start_address offset offset' : Z)
    (s s' : state) :
  0 <= search_start_address -> 0 <= offset ->
  length (MEMORY_USED s) = Z.to_nat MAX_MEMORY ->
  search_body MAX_MEMORY n search_start_address offset s
    = Returns (Continue offset') s' ->
  offset' <= offset + MAX_MEMORY + 1.
Proof.
  intros Hssa Hoff LU.
  assert (Hstart : 0 <= Z.rem (search_start_address + offset) MAX_MEMORY
                   < MAX_MEMORY) by (apply Z.rem_bound_pos; lia).
  unfold search_body.
  set (start := Z.rem (search_start_address + offset) MAX_MEMORY) in *.
  destruct (rd_in_bounds (MEMORY_USED s) start) as [u Hu]; [lia|].
  rewrite (bind_returns _ _ _ _ _ (load_used_returns s _ _ Hu)).
  destruct u.
  - unfold ret. intros H. injection H as <- _. lia.
  - destruct (window_loop_spec MAX_MEMORY (Z.to_nat (n + 2)) start 0 s)
      as [(k & E & Hk & _ & Hfree)|(E & _)]; [lia|exact LU| |].
    + rewrite (bind_returns _ _ _ _ _ E).
      unfold ret. intros H. injection H as <- _.
      destruct (Z.eq_dec k 0) as [->|Hne]; [lia|].
      destruct (Hfree (k - 1)) as [Hb _]; lia.
    + rewrite (bind_returns _ _ _ _ _ E).
      unfold bind. destruct (mark_loop _ _ _ s); try congruence.
      unfold ret. congruence.
Qed.

Lemma search_loop_spec (n search_start_address : Z) (fuel : nat) :
  forall (offset : Z) (s : state),
    0 <= search_start_address -> 0 <= offset ->
    MAX_MEMORY - offset <= Z.of_nat fuel ->
    length (MEMORY_USED s) = Z.to_nat MAX_MEMORY ->
    length (MEMORY_IS_POINTER s) = Z.to_nat MAX_MEMORY ->
    (exists start s',
       search_loop MAX_MEMORY fuel n search_start_address offset s
         = Returns (start + 1) s' /\
       (exists offset', offset <= offset' < MAX_MEMORY /\
          start = Z.rem (search_start_address + offset') MAX_MEMORY) /\
       rd (MEMORY_USED s) start = Some false /\
       window_free MAX_MEMORY (MEMORY_USED s) start n /\
       allocated s s' start n)
    \/
    (exists s',
       search_loop MAX_MEMORY fuel n search_start_address offset s = Exits 1 s' /\
       gave_up s s').
Proof.
  induction fuel as [|fuel IH]; intros offset s Hssa Hoff Hfuel LU LP.
  - right. simpl. destruct (Z.ltb_spec offset MAX_MEMORY) as [Hlt|Hge]; [lia|].
    eexists. split; [reflexivity|]. repeat split.
  - simpl. destruct (Z.ltb_spec offset MAX_MEMORY) as [Hlt|Hge].
    + destruct (search_body_spec n search_start_address offset s Hssa Hoff LU LP)
        as [(offset' & E & Hinc & _)|(s' & E & Hu & W & Al)].
      * rewrite (bind_returns _ _ _ _ _ E).
        destruct (IH offset' s) as [(start & s' & E' & (o & Ho & Hs) & Hu & W & Al)|R];
          [lia|lia|lia|exact LU|exact LP| |right; exact R].
        left. exists start, s'. split; [exact E'|].
        split; [exists o; split; [lia|exact Hs]|]. auto.
      * rewrite (bind_returns _ _ _ _ _ E).
        left. eexists _, s'. split; [reflexivity|].
        split; [exists offset; split; [lia|reflexivity]|]. auto.
    + right. eexists. split; [reflexivity|]. repeat split.
Qed.

(** Every outcome of my_malloc on a well-formed state. *)
Lemma my_malloc_spec (size : Z) (s : state) :
  well_formed MAX_MEMORY s ->
  let n := slots_of size in
  (exists start s',
     my_malloc MAX_MEMORY size s = Returns (start + 1) s' /\
     0 <= start < MAX_MEMORY /\
     rd (MEMORY_USED s) start = Some false /\
     window_free MAX_MEMORY (MEMORY_USED s) start n /\
     MEMORY_BUFFER s' = MEMORY_BUFFER s /\
     rand_tape s' = rand_tape s /\
     rand_pos s' = S (rand_pos s) /\
     stdout s' = stdout s /\
     updated_on (MEMORY_USED s) (MEMORY_USED s') (start + 1) (start + 1 + n) true /\
     updated_on (MEMORY_IS_POINTER s) (MEMORY_IS_POINTER s')
                (start + 1) (start + 1 + n) false)
  \/
  (exists s',
     my_malloc MAX_MEMORY size s = Exits 1 s' /\
     MEMORY_BUFFER s' = MEMORY_BUFFER s /\
     MEMORY_USED s' = MEMORY_USED s /\
     MEMORY_IS_POINTER s' = MEMORY_IS_POINTER s /\
     rand_tape s' = rand_tape s /\
     rand_pos s' = S (rand_pos s) /\
     stdout s' = stdout s +:+ out_of_memory_text).
Proof.
  intros (_ & LB & LU & LP & Hr) n.
  unfold my_malloc. fold (slots_of size). fold n.
  unfold bind at 1. unfold rand at 1.
  set (s0 := mkState _ _ _ _ _ _).
  assert (Hssa : 0 <= Z.rem (rand_tape s (rand_pos s)) MAX_MEMORY).
  { apply Z.rem_nonneg; [lia|apply Hr]. }
  destruct (search_loop_spec n (Z.rem (rand_tape s (rand_pos s)) MAX_MEMORY)
              (Z.to_nat MAX_MEMORY) 0 s0 Hssa)
    as [(start & s' & E & (o & Ho & Hs) & Hu & W & (R & U & P))|(s' & E & G)];
    [lia|lia|exact LU|exact LP| |].
  - left. exists start, s'. split; [exact E|].
    destruct R as (R1 & R2 & R3 & R4).
    split; [subst start; apply Z.rem_bound_pos; lia|].
    exact (conj Hu (conj W (conj R1 (conj R2 (conj R3 (conj R4 (conj U P))))))).
  - right. exists s'. split; [exact E|]. exact G.
Qed.

End Search.

(** ** Release and tagging *)

Section Release.

Variable MAX_MEMORY : Z.

Lemma free_loop_spec (fuel : nat) :
  forall (address : Z) (s : state),
    0 <= address ->
    MAX_MEMORY - address <= Z.of_nat fuel ->
    length (MEMORY_USED s) = Z.to_nat MAX_MEMORY ->
    exists stop s',
      free_loop MAX_MEMORY fuel address s = Returns tt s' /\
      address <= stop <= Z.max address MAX_MEMORY /\
      (forall j, address <= j < stop -> rd (MEMORY_USED s) j = Some true) /\
      (MAX_MEMORY <= stop \/ rd (MEMORY_USED s) stop = Some false) /\
      same_rest s s' /\
      MEMORY_IS_POINTER s' = MEMORY_IS_POINTER s /\
      updated_on (MEMORY_USED s) (MEMORY_USED s') address stop false.
Proof.
  induction fuel as [|fuel IH]; intros address s Hpos Hfuel LU.
  - exists address, s. simpl.
    destruct (Z.ltb_spec address MAX_MEMORY) as [Hlt|Hge]; [lia|].
    split; [reflexivity|]. split; [lia|]. split; [intros j Hj; lia|].
    split; [left; lia|]. split; [apply same_rest_refl|].
    split; [reflexivity|apply updated_on_refl].
  - simpl. destruct (Z.ltb_spec address MAX_MEMORY) as [Hlt|Hge].
    + destruct (rd_in_bounds (MEMORY_USED s) address) as [u Hu]; [lia|].
      rewrite (bind_returns _ _ _ _ _ (load_used_returns s _ _ Hu)).
      destruct u.
      * destruct (store_used_returns s address false) as (s1 & E1 & R1 & P1 & U1);
          [lia|].
        rewrite (bind_returns _ _ _ _ _ E1).
        assert (L1 : length (MEMORY_USED s1) = Z.to_nat MAX_MEMORY).
        { destruct U1 as [L _]. congruence. }
        destruct (IH (address + 1) s1)
          as (stop & s' & E & Hstop & Hrun & Hend & R & P & U); [lia|lia|exact L1|].
        exists stop, s'. split; [exact E|]. split; [lia|].
        destruct U1 as (LL & I1 & O1). split.
        { intros j Hj. destruct (Z.eq_dec j address) as [->|Hne]; [exact Hu|].
          rewrite <- O1 by lia. apply Hrun. lia. }
        split.
        { destruct Hend as [Hend|Hend]; [left; exact Hend|right].
          rewrite <- O1 by lia. exact Hend. }
        split; [eauto using same_rest_trans|]. split; [congruence|].
        apply updated_on_trans with (b := MEMORY_USED s1) (mid := address + 1);
          [lia| |exact U].
        split; [exact LL|]. split; assumption.
      * exists address, s. split; [reflexivity|]. split; [lia|].
        split; [intros j Hj; lia|]. split; [right; exact Hu|].
        split; [apply same_rest_refl|].
        split; [reflexivity|apply updated_on_refl].
    + exists address, s. split; [reflexivity|]. split; [lia|].
      split; [intros j Hj; lia|]. split; [left; lia|].
      split; [apply same_rest_refl|].
      split; [reflexivity|apply updated_on_refl].
Qed.

Lemma my_free_spec (ptr : Z) (s : state) :
  0 <= ptr ->
  length (MEMORY_USED s) = Z.to_nat MAX_MEMORY ->
  exists stop s',
    my_free MAX_MEMORY ptr s = Returns tt s' /\
    ptr <= stop <= Z.max ptr MAX_MEMORY /\
    (forall j, ptr <= j < stop -> rd (MEMORY_USED s) j = Some true) /\
    (MAX_MEMORY <= stop \/ rd (MEMORY_USED s) stop = Some false) /\
    same_rest s s' /\
    MEMORY_IS_POINTER s' = MEMORY_IS_POINTER s /\
    updated_on (MEMORY_USED s) (MEMORY_USED s') ptr stop false.
Proof.
  intros Hpos LU. unfold my_free. apply free_loop_spec; [exact Hpos|lia|exact LU].
Qed.

Lemma tag_loop_spec (cnt : nat) :
  forall (offset i : Z) (s : state),
    0 <= offset + i ->
    offset + i + Z.of_nat cnt <= Z.of_nat (length (MEMORY_IS_POINTER s)) ->
    exists s', tag_loop cnt offset i s = Returns tt s' /\
      same_rest s s' /\
      MEMORY_USED s' = MEMORY_USED s /\
      updated_on (MEMORY_IS_POINTER s) (MEMORY_IS_POINTER s')
                 (offset + i) (offset + i + Z.of_nat cnt) true.
Proof.
  induction cnt as [|cnt IH]; intros offset i s Hpos Hhi.
  - exists s. split; [reflexivity|]. split; [apply same_rest_refl|].
    split; [reflexivity|]. rewrite Z.add_0_r. apply updated_on_refl.
  - simpl.
    destruct (store_is_pointer_returns s (offset + i) true)
      as (s1 & E1 & R1 & U1 & P1); [lia|].
    rewrite (bind_returns _ _ _ _ _ E1).
    assert (L1 : length (MEMORY_IS_POINTER s1) = length (MEMORY_IS_POINTER s)).
    { apply P1. }
    destruct (IH offset (i + 1) s1) as (s2 & E2 & R2 & U2 & P2);
      [lia|rewrite L1; lia|].
    exists s2. split; [exact E2|]. split; [eauto using same_rest_trans|].
    split; [congruence|].
    replace (offset + i + Z.of_nat (S cnt))
      with (offset + (i + 1) + Z.of_nat cnt) by lia.
    apply updated_on_trans with (b := MEMORY_IS_POINTER s1) (mid := offset + (i + 1));
      [lia| |exact P2].
    replace (offset + (i + 1)) with (offset + i + 1) by lia. exact P1.
Qed.

End Release.

(** ** Arithmetic of the slot count *)

Lemma slots_of_ceil (size : Z) :
  0 < size -> 8 * (slots_of size - 1) < size <= 8 * slots_of size.
Proof.
  intros H. unfold slots_of.
  pose proof (Z.quot_rem' (size - 1) 8) as E.
  pose proof (Z.rem_bound_pos (size - 1) 8) as B.
  lia.
Qed.

Lemma slots_of_pos (size : Z) : 0 < size -> 1 <= slots_of size.
Proof. intros H. pose proof (slots_of_ceil size H). lia. Qed.

Lemma startup_well_formed (MAX_MEMORY r : Z) :
  0 < MAX_MEMORY -> 0 <= r -> well_formed MAX_MEMORY (startup MAX_MEMORY (fun _ => r)).
Proof.
  intros HM Hr. unfold well_formed, startup. simpl.
  rewrite !length_replicate. auto.
Qed.

(** ** Allocation *)

(** C1: For every requested size s > 0 for which the placement search
    succeeds, my_malloc computes n = ceil(s/8) and returns the handle
    start+1 such that the n slots start+1..start+n were free before the
    call and are used afterwards with their pointer tags cleared; the
    leading guard slot start was free and is left as it was. *)
Theorem my_malloc_marks_free_run (MAX_MEMORY size h : Z) (s s' : state) :
  well_formed MAX_MEMORY s ->
  0 < size ->
  my_malloc MAX_MEMORY size s = Returns h s' ->
  let n := slots_of size in
  let start := h - 1 in
  8 * (n - 1) < size <= 8 * n /\
  0 <= start /\ start + n < MAX_MEMORY /\
  (forall i, start + 1 <= i <= start + n ->
     rd (MEMORY_USED s) i = Some false /\
     rd (MEMORY_USED s') i = Some true /\
     rd (MEMORY_IS_POINTER s') i = Some false) /\
  rd (MEMORY_USED s) start = Some false /\
  rd (MEMORY_USED s') start = Some false /\
  rd (MEMORY_IS_POINTER s') start = rd (MEMORY_IS_POINTER s) start /\
  rd (MEMORY_BUFFER s') start = rd (MEMORY_BUFFER s) start.
Proof.
  intros WF Hsize E n start.
  pose proof (slots_of_ceil size Hsize) as Hn. fold n in Hn.
  destruct (my_malloc_spec MAX_MEMORY (proj1 WF) size s WF)
    as [(st & s1 & E1 & Hst & Hu & W & B & _ & _ & _ & U & P)|(s1 & E1 & _)];
    [|congruence].
  rewrite E in E1. injection E1 as -> <-.
  replace start with st by (unfold start; lia). fold n in W, U, P.
  split; [exact Hn|]. split; [lia|].
  split; [destruct (W n) as [W1 _]; lia|].
  destruct U as (_ & UI & UO). destruct P as (_ & PI & PO).
  split.
  - intros i Hi. split.
    + replace i with (st + (i - st)) by lia. apply W. lia.
    + split; [apply UI; lia|apply PI; lia].
  - split; [exact Hu|]. split; [rewrite UO by lia; exact Hu|].
    split; [apply PO; lia|rewrite B; reflexivity].
Qed.

Lemma my_malloc_marks_free_run_witness :
  rd (MEMORY_USED fresh10) 4 = Some false /\
  rd (MEMORY_USED allocated10) 4 = Some true.
Proof.
  pose proof (my_malloc_marks_free_run 10 24 3 fresh10 allocated10
    (startup_well_formed 10 2 eq_refl (Z.le_0_2)) eq_refl eq_refl) as H.
  destruct H as (_ & _ & _ & H & _).
  destruct (H 4) as (H1 & H2 & _); [vm_compute; split; discriminate|].
  split; [exact H1|exact H2].
Defined.

(** C3: When my_malloc finds no fit it prints the out-of-memory message
    once and ends the process with the arrays exactly as they were; and
    it does take that path whenever no position of the arena has a free
    window. *)
Theorem my_malloc_exhaustion_keeps_state (MAX_MEMORY size : Z) (s : state) :
  well_formed MAX_MEMORY s ->
  (forall status s',
     my_malloc MAX_MEMORY size s = Exits status s' ->
     status = 1 /\
     MEMORY_BUFFER s' = MEMORY_BUFFER s /\
     MEMORY_USED s' = MEMORY_USED s /\
     MEMORY_IS_POINTER s' = MEMORY_IS_POINTER s /\
     stdout s' = stdout s +:+ out_of_memory_text) /\
  ((forall start, 0 <= start < MAX_MEMORY ->
      ~ window_free MAX_MEMORY (MEMORY_USED s) start (slots_of size)) ->
   exists s', my_malloc MAX_MEMORY size s = Exits 1 s').
Proof.
  intros WF.
  destruct (my_malloc_spec MAX_MEMORY (proj1 WF) size s WF)
    as [(st & s1 & E1 & Hst & Hu & W & _)|(s1 & E1 & B & U & P & _ & _ & O)].
  - split.
    + intros status s' E. congruence.
    + intros Hno. exfalso. exact (Hno st Hst W).
  - split.
    + intros status s' E. rewrite E in E1. injection E1 as -> ->. auto.
    + intros _. exists s1. exact E1.
Qed.

Lemma my_malloc_exhaustion_keeps_state_witness :
  exists s', my_malloc 10 72 fresh10 = Exits 1 s' /\
    MEMORY_USED s' = MEMORY_USED fresh10 /\
    stdout s' = out_of_memory_text.
Proof.
  pose proof (my_malloc_exhaustion_keeps_state 10 72 fresh10
    (startup_well_formed 10 2 eq_refl (Z.le_0_2))) as [H _].
  eexists. split; [vm_compute; reflexivity|].
  destruct (H 1 _ ltac:(vm_compute; reflexivity)) as (_ & _ & U & _ & O).
  split; [exact U|exact O].
Defined.

(** The scan does not try every position: after a window runs into the
    end of the arena the next position tried is 1, not 0.  In a fresh
    ten-slot arena a request for 8 slots fits at position 0 only, and
    with [rand()] yielding 5 the search gives up without trying it. *)
Example my_malloc_may_miss_a_fit :
  window_free 10 (MEMORY_USED (startup 10 (fun _ => 5))) 0 (slots_of 64) /\
  exists s', my_malloc 10 64 (startup 10 (fun _ => 5)) = Exits 1 s'.
Proof.
  split.
  - intros i Hi. change (slots_of 64) with 8 in Hi.
    assert (i = 0 \/ i = 1 \/ i = 2 \/ i = 3 \/ i = 4 \/
            i = 5 \/ i = 6 \/ i = 7 \/ i = 8 \/ i = 9) as Hc by lia.
    destruct Hc as [->|[->|[->|[->|[->|[->|[->|[->|[->| ->]]]]]]]]];
      (split; [lia|reflexivity]).
  - eexists. vm_compute. reflexivity.
Qed.

(** C5: For every size and every arena state, my_malloc never accesses
    an array outside its bounds (so it never marks a slot at an index
    below 0 or at or beyond MAX_MEMORY), the arrays keep their MAX_MEMORY
    elements, and the slots whose used flag changes lie inside both the
    arena and the returned block. *)
Theorem my_malloc_stays_in_bounds (MAX_MEMORY size : Z) (s : state) :
  well_formed MAX_MEMORY s ->
  my_malloc MAX_MEMORY size s <> Undefined /\
  (forall h s',
     my_malloc MAX_MEMORY size s = Returns h s' ->
     well_formed MAX_MEMORY s' /\
     0 < h /\ h + slots_of size < MAX_MEMORY /\
     (forall i, rd (MEMORY_USED s') i <> rd (MEMORY_USED s) i ->
        0 <= i < MAX_MEMORY /\ h <= i < h + slots_of size)).
Proof.
  intros WF.
  destruct (my_malloc_spec MAX_MEMORY (proj1 WF) size s WF)
    as [(st & s1 & E1 & Hst & Hu & W & B & T & _ & _ & U & P)|(s1 & E1 & _)].
  - split; [congruence|]. intros h s' E.
    rewrite E in E1. injection E1 as -> ->.
    destruct WF as (HM & LB & LU & LP & Hr).
    destruct U as (UL & UI & UO). destruct P as (PL & _).
    split.
    { split; [exact HM|]. split; [congruence|]. split; [congruence|].
      split; [congruence|]. intros k. rewrite T. apply Hr. }
    split; [lia|].
    assert (Hin : forall i, rd (MEMORY_USED s1) i <> rd (MEMORY_USED s) i ->
                            st + 1 <= i < st + 1 + slots_of size).
    { intros i Hne.
      destruct (Z_le_gt_dec (st + 1) i); [destruct (Z_lt_ge_dec i (st + 1 + slots_of size))|];
        [lia| |]; exfalso; apply Hne; apply UO; lia. }
    split.
    { destruct (Z_le_gt_dec (slots_of size) (-2)) as [Hn|Hn]; [lia|].
      destruct (W (slots_of size + 1)) as [W1 _]; lia. }
    intros i Hne. specialize (Hin i Hne).
    split; [|exact Hin].
    destruct (W (i - st)) as [W1 _]; lia.
  - split; [congruence|]. intros h s' E. congruence.
Qed.

Lemma my_malloc_stays_in_bounds_witness :
  my_malloc 450 8 (fresh450 448) <> Undefined.
Proof.
  exact (proj1 (my_malloc_stays_in_bounds 450 8 (fresh450 448)
                  (startup_well_formed 450 448 eq_refl ltac:(lia)))).
Defined.

(** ** Initialisation *)

Section Init.

Variable MAX_MEMORY : Z.

Lemma double_rand_loop_spec (cnt : nat) :
  forall (i resultBuff : Z) (s : state),
    exists v, double_rand_loop cnt i resultBuff s =
      Returns v (mkState (MEMORY_BUFFER s) (MEMORY_USED s) (MEMORY_IS_POINTER s)
                         (rand_tape s) (cnt + rand_pos s)%nat (stdout s)).
Proof.
  induction cnt as [|cnt IH]; intros i resultBuff s.
  - exists resultBuff. destruct s. reflexivity.
  - simpl double_rand_loop. unfold bind at 1, rand at 1.
    edestruct IH as [v E]. rewrite E. exists v. simpl.
    rewrite Nat.add_succ_r. reflexivity.
Qed.

Lemma init_loop_spec (cnt : nat) :
  forall (i : Z) (s : state),
    0 <= i ->
    i + Z.of_nat cnt <= Z.of_nat (length (MEMORY_USED s)) ->
    length (MEMORY_BUFFER s) = length (MEMORY_USED s) ->
    exists s', init_loop cnt i s = Returns tt s' /\
      MEMORY_IS_POINTER s' = MEMORY_IS_POINTER s /\
      rand_tape s' = rand_tape s /\
      stdout s' = stdout s /\
      length (MEMORY_BUFFER s') = length (MEMORY_BUFFER s) /\
      updated_on (MEMORY_USED s) (MEMORY_USED s') i (i + Z.of_nat cnt) false.
Proof.
  induction cnt as [|cnt IH]; intros i s Hpos Hhi Hlen.
  - exists s. split; [reflexivity|]. repeat (split; [reflexivity|]).
    rewrite Z.add_0_r. apply updated_on_refl.
  - simpl.
    destruct (store_used_returns s i false) as (s1 & E1 & R1 & P1 & U1); [lia|].
    rewrite (bind_returns _ _ _ _ _ E1).
    destruct (double_rand_loop_spec 8 0 0 s1) as [v Ev].
    unfold double_rand. rewrite (bind_returns _ _ _ _ _ Ev).
    destruct R1 as (B1 & T1 & _ & O1). destruct U1 as (L1 & I1 & X1).
    unfold bind at 1, store_buffer at 1. simpl.
    rewrite wr_in_bounds by (rewrite B1, Hlen; lia).
    edestruct (IH (i + 1)) as (s3 & E3 & P3 & T3 & O3 & L3 & U3);
      [| | |rewrite E3].
    + lia.
    + simpl. rewrite L1. lia.
    + simpl. rewrite length_insert. congruence.
    + simpl in *. exists s3. split; [reflexivity|].
      split; [congruence|]. split; [congruence|]. split; [congruence|].
      split; [rewrite L3, length_insert; congruence|].
      replace (i + Z.of_nat (S cnt)) with (i + 1 + Z.of_nat cnt) by lia.
      apply updated_on_trans with (b := MEMORY_USED s1) (mid := i + 1);
        [lia| |exact U3].
      split; [exact L1|]. split; assumption.
Qed.

(** init_my_malloc on arrays of the right size: every slot is free
    afterwards and the state is well formed. *)
Lemma init_my_malloc_spec (seeded : nat -> Z) (s : state) :
  0 < MAX_MEMORY ->
  length (MEMORY_BUFFER s) = Z.to_nat MAX_MEMORY ->
  length (MEMORY_USED s) = Z.to_nat MAX_MEMORY ->
  length (MEMORY_IS_POINTER s) = Z.to_nat MAX_MEMORY ->
  (forall k, 0 <= seeded k) ->
  exists s', init_my_malloc MAX_MEMORY seeded s = Returns tt s' /\
    well_formed MAX_MEMORY s' /\
    MEMORY_IS_POINTER s' = MEMORY_IS_POINTER s /\
    stdout s' = stdout s /\
    (forall i, 0 <= i < MAX_MEMORY -> rd (MEMORY_USED s') i = Some false).
Proof.
  intros HM LB LU LP Hr. unfold init_my_malloc.
  unfold bind at 1, srand at 1.
  edestruct (init_loop_spec (Z.to_nat MAX_MEMORY) 0) as (s' & E & P & T & O & L & U);
    [| | |rewrite E].
  - lia.
  - simpl. lia.
  - simpl. congruence.
  - simpl in *. exists s'. split; [reflexivity|].
    destruct U as (UL & UI & _).
    split.
    { split; [exact HM|]. split; [congruence|]. split; [congruence|].
      split; [congruence|]. intros k. rewrite T. apply Hr. }
    split; [exact P|]. split; [exact O|].
    intros i Hi. apply UI. lia.
Qed.

End Init.

(** C10: my_malloc never changes a stored value: on success
    MEMORY_BUFFER is what it was, and so are the used and is_pointer
    flags of every slot outside the returned block; hence the values
    init_my_malloc put into the buffer are still there after an
    allocation that follows it. *)
Theorem my_malloc_keeps_values (MAX_MEMORY size : Z) :
  (forall h s s',
     well_formed MAX_MEMORY s ->
     my_malloc MAX_MEMORY size s = Returns h s' ->
     MEMORY_BUFFER s' = MEMORY_BUFFER s /\
     (forall i, ~ (h <= i < h + slots_of size) ->
        rd (MEMORY_USED s') i = rd (MEMORY_USED s) i /\
        rd (MEMORY_IS_POINTER s') i = rd (MEMORY_IS_POINTER s) i)) /\
  (forall seeded s0,
     well_formed MAX_MEMORY s0 ->
     (forall k, 0 <= seeded k) ->
     exists s1,
       init_my_malloc MAX_MEMORY seeded s0 = Returns tt s1 /\
       forall h s2,
         my_malloc MAX_MEMORY size s1 = Returns h s2 ->
         MEMORY_BUFFER s2 = MEMORY_BUFFER s1).
Proof.
  assert (Frame : forall h s s',
     well_formed MAX_MEMORY s ->
     my_malloc MAX_MEMORY size s = Returns h s' ->
     MEMORY_BUFFER s' = MEMORY_BUFFER s /\
     (forall i, ~ (h <= i < h + slots_of size) ->
        rd (MEMORY_USED s') i = rd (MEMORY_USED s) i /\
        rd (MEMORY_IS_POINTER s') i = rd (MEMORY_IS_POINTER s) i)).
  { intros h s s' WF E.
    destruct (my_malloc_spec MAX_MEMORY (proj1 WF) size s WF)
      as [(st & s1 & E1 & Hst & Hu & W & B & T & _ & _ & U & P)|(s1 & E1 & _)];
      [|congruence].
    rewrite E in E1. injection E1 as -> ->.
    split; [exact B|].
    intros i Hi. destruct U as (_ & _ & UO). destruct P as (_ & _ & PO).
    split; [apply UO; exact Hi|apply PO; exact Hi]. }
  split; [exact Frame|].
  intros seeded s0 (HM & LB & LU & LP & _) Hr.
  destruct (init_my_malloc_spec MAX_MEMORY seeded s0 HM LB LU LP Hr)
    as (s1 & E & WF1 & _).
  exists s1. split; [exact E|].
  intros h s2 E2. exact (proj1 (Frame h s1 s2 WF1 E2)).
Qed.

Lemma my_malloc_keeps_values_witness :
  exists s1 s2,
    init_my_malloc 10 (fun _ => 2) fresh10 = Returns tt s1 /\
    my_malloc 10 24 s1 = Returns 3 s2 /\
    MEMORY_BUFFER s2 = MEMORY_BUFFER s1.
Proof.
  destruct (proj2 (my_malloc_keeps_values 10 24) (fun _ => 2) fresh10
              (startup_well_formed 10 2 eq_refl (Z.le_0_2))
              (fun _ => Z.le_0_2)) as (s1 & E1 & H).
  vm_compute in E1. injection E1 as <-.
  eexists _, _. split; [vm_compute; reflexivity|].
  split; [vm_compute; reflexivity|].
  apply (H 3). vm_compute. reflexivity.
Defined.

(** ** Which positions the search accepts *)

(** In a fresh arena of 450 slots the one-slot run 449 behind the guard
    448 ends exactly at the last slot.  The condition with the open end
    holds there, yet the pass of the search that looks at position 448
    does not return slot 449: it moves on to offset 3. *)
Lemma open_end_counterexample :
  ~ (accepts_with_open_end 450 (MEMORY_USED (fresh450 448)) 448 1 ->
     exists s', search_body 450 1 448 0 (fresh450 448)
                  = Returns (Return 449) s').
Proof.
  intros H. destruct H as [s' E].
  - split; [reflexivity|]. split.
    + intros i Hi. assert (i = 1) as -> by lia. split; [lia|reflexivity].
    + left. lia.
  - vm_compute in E. discriminate E.
Qed.

(** With [rand()] pointing the search at 448, the allocation of one slot
    in the fresh arena lands at slot 2. *)
Example my_malloc_skips_arena_end :
  exists s', my_malloc 450 8 (fresh450 448) = Returns 2 s'.
Proof. eexists. vm_compute. reflexivity. Qed.

(** C4 (as the code has it): a pass of the search at position start
    returns the block behind start exactly when all n+2 slots
    start..start+n+1 lie inside the arena and are free, so the trailing
    guard start+n+1 must be an existing free slot and a free run ending
    at the last slot is not taken; otherwise the pass changes nothing and
    continues with a larger offset. *)
Theorem search_accepts_iff_window_free
    (MAX_MEMORY n search_start_address offset : Z) (s : state) :
  0 < MAX_MEMORY ->
  length (MEMORY_USED s) = Z.to_nat MAX_MEMORY ->
  length (MEMORY_IS_POINTER s) = Z.to_nat MAX_MEMORY ->
  0 <= search_start_address -> 0 <= offset ->
  0 < n ->
  let start := Z.rem (search_start_address + offset) MAX_MEMORY in
  ((exists s', search_body MAX_MEMORY n search_start_address offset s
                 = Returns (Return (start + 1)) s')
   <-> window_free MAX_MEMORY (MEMORY_USED s) start n) /\
  (window_free MAX_MEMORY (MEMORY_USED s) start n ->
   start + n + 1 < MAX_MEMORY /\
   rd (MEMORY_USED s) (start + n + 1) = Some false) /\
  (~ window_free MAX_MEMORY (MEMORY_USED s) start n ->
   exists offset',
     search_body MAX_MEMORY n search_start_address offset s
       = Returns (Continue offset') s /\
     offset < offset').
Proof.
  intros HM LU LP Hssa Hoff Hn start.
  pose proof (search_body_spec MAX_MEMORY HM n search_start_address offset s
                Hssa Hoff LU LP) as Spec.
  fold start in Spec.
  split; [split|split].
  - intros [s' E].
    destruct Spec as [(o & E' & _)|(s1 & _ & _ & W & _)]; [congruence|exact W].
  - intros W.
    destruct Spec as [(o & _ & _ & NW)|(s1 & E & _)];
      [exfalso; apply NW; [lia|exact W]|].
    exists s1. exact E.
  - intros W. destruct (W (n + 1)) as [W1 W2]; [lia|].
    rewrite Z.add_assoc in W1, W2. split; assumption.
  - intros NW.
    destruct Spec as [(o & E & Ho & _)|(s1 & _ & _ & W & _)];
      [|exfalso; exact (NW W)].
    exists o. split; assumption.
Qed.

Lemma search_accepts_iff_window_free_witness :
  window_free 10 (MEMORY_USED fresh10) 2 3.
Proof.
  apply (proj1 (search_accepts_iff_window_free 10 3 2 0 fresh10
                  eq_refl eq_refl eq_refl (Z.le_0_2) (Z.le_refl 0) eq_refl)).
  eexists. vm_compute. reflexivity.
Defined.

(** ** Termination of the scan *)

Section Fuel.

Variable MAX_MEMORY : Z.

Lemma window_loop_break_ge (cnt : nat) :
  forall (start i k : Z) (s s' : state),
    window_loop MAX_MEMORY cnt start i s = Returns (Some k) s' -> i <= k.
Proof.
  induction cnt as [|cnt IH]; intros start i k s s'; simpl.
  - unfold ret. congruence.
  - destruct (MAX_MEMORY <=? start + i).
    + unfold ret. intros H. injection H as <- _. lia.
    + unfold bind, load_used. destruct (rd (MEMORY_USED s) (start + i)) as [[|]|].
      * unfold ret. intros H. injection H as <- _. lia.
      * intros H. apply IH in H. lia.
      * congruence.
Qed.

Lemma window_loop_fuel (cnt : nat) :
  forall (start i : Z) (s : state),
    window_loop MAX_MEMORY cnt start i s <> OutOfFuel.
Proof.
  induction cnt as [|cnt IH]; intros start i s; simpl.
  - unfold ret. congruence.
  - destruct (MAX_MEMORY <=? start + i); [unfold ret; congruence|].
    unfold bind, load_used. destruct (rd (MEMORY_USED s) (start + i)) as [[|]|].
    + unfold ret. congruence.
    + apply IH.
    + congruence.
Qed.

Lemma mark_loop_fuel (cnt : nat) :
  forall (start i : Z) (s : state), mark_loop cnt start i s <> OutOfFuel.
Proof.
  induction cnt as [|cnt IH]; intros start i s; simpl.
  - unfold ret. congruence.
  - unfold bind at 1, store_used at 1.
    destruct (wr (MEMORY_USED s) (start + i) true); [|congruence].
    unfold bind at 1, store_is_pointer at 1. simpl.
    destruct (wr (MEMORY_IS_POINTER s) (start + i) false); [|congruence].
    apply IH.
Qed.

Lemma search_body_fuel (n search_start_address offset : Z) (s : state) :
  search_body MAX_MEMORY n search_start_address offset s <> OutOfFuel.
Proof.
  unfold search_body. unfold bind at 1, load_used at 1.
  destruct (rd (MEMORY_USED s) _) as [[|]|]; [unfold ret; congruence| |congruence].
  unfold bind at 1.
  destruct (window_loop MAX_MEMORY _ _ _ s) as [[k|] s1| | |] eqn:E;
    try congruence.
  - unfold ret. congruence.
  - unfold bind.
    destruct (mark_loop _ _ _ s1) eqn:E2; try congruence.
    + unfold ret. congruence.
    + exfalso. exact (mark_loop_fuel _ _ _ _ E2).
  - exfalso. exact (window_loop_fuel _ _ _ _ E).
Qed.

(** A pass that asks for another round has moved the offset forward. *)
Lemma search_body_moves_on (n search_start_address offset offset' : Z)
    (s s' : state) :
  search_body MAX_MEMORY n search_start_address offset s
    = Returns (Continue offset') s' ->
  offset < offset'.
Proof.
  unfold search_body. unfold bind at 1, load_used at 1.
  destruct (rd (MEMORY_USED s) _) as [[|]|]; [| |congruence].
  - unfold ret. intros H. injection H as <- _. lia.
  - unfold bind at 1.
    destruct (window_loop MAX_MEMORY _ _ _ s) as [[k|] s1| | |] eqn:E;
      try congruence.
    + apply window_loop_break_ge in E.
      unfold ret. intros H. injection H as <- _. lia.
    + unfold bind. destruct (mark_loop _ _ _ s1); try congruence.
      unfold ret. congruence.
Qed.

Lemma search_loop_fuel (n search_start_address : Z) (fuel : nat) :
  forall (offset : Z) (s : state),
    MAX_MEMORY - offset <= Z.of_nat fuel ->
    search_loop MAX_MEMORY fuel n search_start_address offset s <> OutOfFuel.
Proof.
  induction fuel as [|fuel IH]; intros offset s Hfuel; simpl.
  - destruct (Z.ltb_spec offset MAX_MEMORY); [lia|].
    unfold bind, printf, exit. congruence.
  - destruct (Z.ltb_spec offset MAX_MEMORY);
      [|unfold bind, printf, exit; congruence].
    unfold bind.
    destruct (search_body MAX_MEMORY n search_start_address offset s)
      as [[offset'|ptr] s1| | |] eqn:E; try congruence.
    + apply search_body_moves_on in E. apply IH. lia.
    + unfold ret. congruence.
    + exfalso. exact (search_body_fuel _ _ _ _ E).
Qed.

End Fuel.

(** C8: For every size and every arena state the scan of my_malloc
    terminates: a pass of the while loop that does not return strictly
    increases the offset, so the MAX_MEMORY passes the model allows are
    never used up, and on a well-formed state my_malloc either returns a
    handle or reaches exit(1). *)
Theorem my_malloc_terminates (MAX_MEMORY size : Z) (s : state) :
  (forall n search_start_address offset offset' t t',
     search_body MAX_MEMORY n search_start_address offset t
       = Returns (Continue offset') t' ->
     offset < offset') /\
  my_malloc MAX_MEMORY size s <> OutOfFuel /\
  (well_formed MAX_MEMORY s ->
   (exists h s', my_malloc MAX_MEMORY size s = Returns h s') \/
   (exists s', my_malloc MAX_MEMORY size s = Exits 1 s')).
Proof.
  split; [intros; eapply search_body_moves_on; eauto|]. split.
  - unfold my_malloc. unfold bind at 1, rand at 1.
    apply search_loop_fuel. lia.
  - intros WF.
    destruct (my_malloc_spec MAX_MEMORY (proj1 WF) size s WF)
      as [(st & s1 & E1 & _)|(s1 & E1 & _)]; eauto.
Qed.

Lemma my_malloc_terminates_witness :
  (exists h s', my_malloc 450 8 (fresh450 448) = Returns h s') \/
  (exists s', my_malloc 450 8 (fresh450 448) = Exits 1 s').
Proof.
  exact (proj2 (proj2 (my_malloc_terminates 450 8 (fresh450 448)))
               (startup_well_formed 450 448 eq_refl ltac:(lia))).
Defined.

(** ** Release *)

(** C2: right after a successful my_malloc of n slots, my_free of the
    returned handle clears exactly the used flags of the n slots the
    allocation set and leaves the used array as it was before the
    allocation; in general my_free walks forward from the handle's slot,
    clearing used on every slot of the run of used slots that starts
    there, and stops at the first free slot or at the end of the arena,
    touching nothing else. *)
Theorem my_free_releases_run (MAX_MEMORY : Z) :
  (forall size h s s1,
     well_formed MAX_MEMORY s ->
     0 < size ->
     my_malloc MAX_MEMORY size s = Returns h s1 ->
     exists s2,
       my_free MAX_MEMORY h s1 = Returns tt s2 /\
       (forall i, h <= i < h + slots_of size ->
          rd (MEMORY_USED s1) i = Some true /\ rd (MEMORY_USED s2) i = Some false) /\
       (forall i, ~ (h <= i < h + slots_of size) ->
          rd (MEMORY_USED s2) i = rd (MEMORY_USED s1) i) /\
       MEMORY_USED s2 = MEMORY_USED s /\
       MEMORY_IS_POINTER s2 = MEMORY_IS_POINTER s1 /\
       same_rest s1 s2) /\
  (forall ptr s,
     0 <= ptr ->
     length (MEMORY_USED s) = Z.to_nat MAX_MEMORY ->
     exists stop s',
       my_free MAX_MEMORY ptr s = Returns tt s' /\
       ptr <= stop <= Z.max ptr MAX_MEMORY /\
       (forall j, ptr <= j < stop -> rd (MEMORY_USED s) j = Some true) /\
       (MAX_MEMORY <= stop \/ rd (MEMORY_USED s) stop = Some false) /\
       (forall j, ptr <= j < stop -> rd (MEMORY_USED s') j = Some false) /\
       (forall j, ~ (ptr <= j < stop) ->
          rd (MEMORY_USED s') j = rd (MEMORY_USED s) j) /\
       MEMORY_IS_POINTER s' = MEMORY_IS_POINTER s /\
       same_rest s s').
Proof.
  split.
  - intros size h s s1 WF Hsize E.
    pose proof (slots_of_pos size Hsize) as Hn.
    destruct (my_malloc_spec MAX_MEMORY (proj1 WF) size s WF)
      as [(st & s1' & E1 & Hst & Hu & W & B & T & _ & _ & U & P)|(s1' & E1 & _)];
      [|congruence].
    rewrite E in E1. injection E1 as -> <-.
    destruct WF as (HM & LB & LU & LP & Hr).
    assert (LU1 : length (MEMORY_USED s1) = Z.to_nat MAX_MEMORY).
    { destruct U as [L _]. congruence. }
    destruct (my_free_spec MAX_MEMORY (st + 1) s1)
      as (stop & s2 & E2 & Hstop & Hrun & Hend & R2 & P2 & U2); [lia|exact LU1|].
    pose proof U as (_ & UI & UO).
    destruct (W (slots_of size + 1)) as [Wb Wf]; [lia|].
    assert (stop = st + 1 + slots_of size) as ->.
    { destruct (Z_lt_ge_dec stop (st + 1 + slots_of size)) as [Hlt|Hge].
      - exfalso. destruct Hend as [Hend|Hend]; [lia|].
        rewrite UI in Hend by lia. discriminate.
      - destruct (Z.eq_dec stop (st + 1 + slots_of size)) as [->|Hne];
          [reflexivity|].
        exfalso. specialize (Hrun (st + 1 + slots_of size)).
        rewrite UO in Hrun by lia.
        replace (st + 1 + slots_of size) with (st + (slots_of size + 1)) in Hrun
          by lia.
        rewrite Wf in Hrun. specialize (Hrun ltac:(lia)). discriminate. }
    exists s2. split; [exact E2|].
    pose proof U2 as (_ & FI & FO).
    split; [intros i Hi; split; [apply UI; exact Hi|apply FI; exact Hi]|].
    split; [exact FO|].
    split; [|split; [exact P2|exact R2]].
    eapply updated_on_undo; [|exact U|exact U2].
    intros j Hj. replace j with (st + (j - st)) by lia. apply W. lia.
  - intros ptr s Hptr LU.
    destruct (my_free_spec MAX_MEMORY ptr s Hptr LU)
      as (stop & s' & E & Hstop & Hrun & Hend & R & P & (_ & FI & FO)).
    exists stop, s'. auto 10.
Qed.

Lemma my_free_releases_run_witness :
  exists s2,
    my_free 10 3 allocated10 = Returns tt s2 /\
    MEMORY_USED s2 = MEMORY_USED fresh10.
Proof.
  destruct (proj1 (my_free_releases_run 10) 24 3 fresh10 allocated10
              (startup_well_formed 10 2 eq_refl (Z.le_0_2)) eq_refl eq_refl)
    as (s2 & E & _ & _ & U & _).
  exists s2. split; [exact E|exact U].
Defined.

(** C9: my_free on a handle whose slot is already free changes nothing
    at all, and therefore a second my_free of the same handle right after
    the first leaves the state the first one produced.  The handle may be
    any non-negative slot index, in particular any index inside the
    arena. *)
Theorem my_free_idempotent (MAX_MEMORY ptr : Z) (s : state) :
  0 <= ptr ->
  length (MEMORY_USED s) = Z.to_nat MAX_MEMORY ->
  (rd (MEMORY_USED s) ptr = Some false -> my_free MAX_MEMORY ptr s = Returns tt s) /\
  (exists s1,
     my_free MAX_MEMORY ptr s = Returns tt s1 /\
     my_free MAX_MEMORY ptr s1 = Returns tt s1).
Proof.
  intros Hptr LU.
  assert (Noop : forall t,
            length (MEMORY_USED t) = Z.to_nat MAX_MEMORY ->
            (MAX_MEMORY <= ptr \/ rd (MEMORY_USED t) ptr = Some false) ->
            my_free MAX_MEMORY ptr t = Returns tt t).
  { intros t LT Hfree.
    destruct (my_free_spec MAX_MEMORY ptr t Hptr LT)
      as (stop & t' & E & Hstop & Hrun & _ & R & P & U).
    assert (stop = ptr) as ->.
    { destruct (Z.eq_dec stop ptr) as [->|Hne]; [reflexivity|].
      exfalso. specialize (Hrun ptr ltac:(lia)).
      destruct Hfree as [Hfree|Hfree]; [lia|congruence]. }
    rewrite E. f_equal. apply state_eq; [exact R| |exact P].
    eapply updated_on_empty; [|exact U]. lia. }
  split.
  - intros Hfree. apply Noop; [exact LU|right; exact Hfree].
  - destruct (my_free_spec MAX_MEMORY ptr s Hptr LU)
      as (stop & s1 & E & Hstop & Hrun & Hend & R & P & U).
    exists s1. split; [exact E|].
    destruct U as (UL & UI & UO).
    apply Noop; [congruence|].
    destruct (Z_lt_ge_dec ptr MAX_MEMORY) as [Hin|Hout]; [right|left; lia].
    destruct (Z.eq_dec stop ptr) as [->|Hne].
    + rewrite UO by lia. destruct Hend as [Hend|Hend]; [lia|exact Hend].
    + apply UI. lia.
Qed.

Lemma my_free_idempotent_witness :
  my_free 10 3 fresh10 = Returns tt fresh10 /\
  exists s1, my_free 10 3 allocated10 = Returns tt s1 /\
             my_free 10 3 s1 = Returns tt s1.
Proof.
  split.
  - exact (proj1 (my_free_idempotent 10 3 fresh10 ltac:(lia) eq_refl) eq_refl).
  - exact (proj2 (my_free_idempotent 10 3 allocated10 ltac:(lia) eq_refl)).
Defined.

(** ** Pointer tags *)




(** ** Printing *)

Lemma append_empty_r (a : string) : a +:+ EmptyString = a.
Proof.
  induction a as [|c a IH]; [reflexivity|]. exact (f_equal (String c) IH).
Qed.

Lemma append_assoc (a b c : string) : (a +:+ b) +:+ c = a +:+ (b +:+ c).
Proof.
  induction a as [|x a IH]; [reflexivity|]. exact (f_equal (String x) IH).
Qed.

Lemma emit_empty (t : state) : emit t EmptyString = t.
Proof. destruct t. unfold emit. simpl. rewrite append_empty_r. reflexivity. Qed.

Lemma emit_emit (t : state) (a b : string) :
  emit (emit t a) b = emit t (a +:+ b).
Proof. unfold emit. simpl. rewrite append_assoc. reflexivity. Qed.

Lemma same_arrays_refl (s : state) : same_arrays s s.
Proof. repeat split. Qed.

Lemma same_arrays_emit (s t : state) (text : string) :
  same_arrays s t -> same_arrays s (emit t text).
Proof. intros H. exact H. Qed.

Lemma printf_emit (text : string) (t : state) :
  printf text t = Returns tt (emit t text).
Proof. reflexivity. Qed.

Section Printing.

Variable MAX_MEMORY : Z.
Variable fmt_g : Z -> string.
Variable MEMORY_BUFFER_addr : Z.

Lemma print_used_loop_spec (cnt : nat) :
  forall (i : Z) (s : state),
    0 <= i ->
    i + Z.of_nat cnt <= Z.of_nat (length (MEMORY_USED s)) ->
    length (MEMORY_IS_POINTER s) = length (MEMORY_USED s) ->
    exists text, forall t, same_arrays s t ->
      print_used_loop cnt i t = Returns tt (emit t text).
Proof.
  induction cnt as [|cnt IH]; intros i s Hpos Hhi Hlen.
  - exists EmptyString. intros t _. rewrite emit_empty. reflexivity.
  - destruct (rd_in_bounds (MEMORY_USED s) i) as [u Hu]; [lia|].
    destruct (rd_in_bounds (MEMORY_IS_POINTER s) i) as [p Hp]; [lia|].
    destruct (IH (i + 1) s) as [rest Hrest]; [lia|lia|exact Hlen|].
    exists ((if Z.rem i cols =? 0
             then newline +:+ fmt_d 6 i +:+ ": " else EmptyString)
            +:+ used_mark u p +:+ rest).
    intros t St. simpl print_used_loop.
    set (head := if Z.rem i cols =? 0
                 then newline +:+ fmt_d 6 i +:+ ": " else EmptyString).
    assert (E0 : (if Z.rem i cols =? 0
                  then printf (newline +:+ fmt_d 6 i +:+ ": ") else ret tt) t
                 = Returns tt (emit t head)).
    { unfold head. destruct (Z.rem i cols =? 0); [reflexivity|].
      rewrite emit_empty. reflexivity. }
    rewrite (bind_returns _ _ _ _ _ E0).
    assert (E1 : (let* u0 := load_used i in
                  if u0 then
                    let* p0 := load_is_pointer i in
                    if p0 then printf "p" else printf "x"
                  else printf ".") (emit t head)
                 = Returns tt (emit (emit t head) (used_mark u p))).
    { destruct St as (_ & SU & SP).
      rewrite (bind_returns _ _ _ u (emit t head));
        [|apply load_used_returns; simpl; rewrite SU; exact Hu].
      destruct u; [|reflexivity].
      rewrite (bind_returns _ _ _ p (emit t head));
        [|apply load_is_pointer_returns; simpl; rewrite SP; exact Hp].
      destruct p; reflexivity. }
    rewrite (bind_returns _ _ _ _ _ E1).
    rewrite Hrest by (apply same_arrays_emit, same_arrays_emit; exact St).
    rewrite !emit_emit. reflexivity.
Qed.

Lemma print_value_loop_spec (cnt : nat) :
  forall (i : Z) (s : state),
    0 <= i ->
    i + Z.of_nat cnt <= Z.of_nat (length (MEMORY_USED s)) ->
    length (MEMORY_IS_POINTER s) = length (MEMORY_USED s) ->
    length (MEMORY_BUFFER s) = length (MEMORY_USED s) ->
    exists text, forall t, same_arrays s t ->
      print_value_loop fmt_g MEMORY_BUFFER_addr cnt i t = Returns tt (emit t text).
Proof.
  induction cnt as [|cnt IH]; intros i s Hpos Hhi Hlen Hlen'.
  - exists EmptyString. intros t _. rewrite emit_empty. reflexivity.
  - destruct (rd_in_bounds (MEMORY_USED s) i) as [u Hu]; [lia|].
    destruct (rd_in_bounds (MEMORY_IS_POINTER s) i) as [p Hp]; [lia|].
    destruct (rd_in_bounds (MEMORY_BUFFER s) i) as [v Hv]; [lia|].
    destruct (IH (i + 1) s) as [rest Hrest]; [lia|lia|exact Hlen|exact Hlen'|].
    exists ((if Z.rem i cols =? 0
             then newline +:+ fmt_d 6 i +:+ ":" else EmptyString)
            +:+ value_field fmt_g MEMORY_BUFFER_addr u p v +:+ rest).
    intros t St. simpl print_value_loop.
    set (head := if Z.rem i cols =? 0
                 then newline +:+ fmt_d 6 i +:+ ":" else EmptyString).
    assert (E0 : (if Z.rem i cols =? 0
                  then printf (newline +:+ fmt_d 6 i +:+ ":") else ret tt) t
                 = Returns tt (emit t head)).
    { unfold head. destruct (Z.rem i cols =? 0); [reflexivity|].
      rewrite emit_empty. reflexivity. }
    rewrite (bind_returns _ _ _ _ _ E0).
    assert (E1 : (let* u0 := load_used i in
                  if u0 then
                    let* p0 := load_is_pointer i in
                    if p0 then
                      let* ppMemD := load_buffer i in
                      printf (" " +:+ fmt_d 5 (Z.quot (ppMemD - MEMORY_BUFFER_addr) 8))
                    else
                      let* v0 := load_buffer i in
                      printf (" " +:+ fmt_g v0)
                  else printf "      ") (emit t head)
                 = Returns tt (emit (emit t head) (value_field fmt_g MEMORY_BUFFER_addr u p v))).
    { destruct St as (SB & SU & SP).
      rewrite (bind_returns _ _ _ u (emit t head));
        [|apply load_used_returns; simpl; rewrite SU; exact Hu].
      destruct u; [|reflexivity].
      rewrite (bind_returns _ _ _ p (emit t head));
        [|apply load_is_pointer_returns; simpl; rewrite SP; exact Hp].
      destruct p;
        (rewrite (bind_returns _ _ _ v (emit t head));
           [|apply load_buffer_returns; simpl; rewrite SB; exact Hv]);
        reflexivity. }
    rewrite (bind_returns _ _ _ _ _ E1).
    rewrite Hrest by (apply same_arrays_emit, same_arrays_emit; exact St).
    rewrite !emit_emit. reflexivity.
Qed.

End Printing.

(** C7: both printing routines leave used, is_pointer and the stored
    values untouched and only append to the output; the text they append
    is determined by the three arrays, so a second call right after the
    first appends the same text again. *)
Theorem printing_reads_only (MAX_MEMORY : Z) (fmt_g : Z -> string)
    (MEMORY_BUFFER_addr : Z) (s : state) :
  well_formed MAX_MEMORY s ->
  (exists text,
     (forall t, same_arrays s t ->
        print_memory_used MAX_MEMORY t = Returns tt (emit t text)) /\
     (print_memory_used MAX_MEMORY >> print_memory_used MAX_MEMORY) s
       = Returns tt (emit (emit s text) text)) /\
  (exists text,
     (forall t, same_arrays s t ->
        print_memory_value MAX_MEMORY fmt_g MEMORY_BUFFER_addr t
          = Returns tt (emit t text)) /\
     (print_memory_value MAX_MEMORY fmt_g MEMORY_BUFFER_addr >>
      print_memory_value MAX_MEMORY fmt_g MEMORY_BUFFER_addr) s
       = Returns tt (emit (emit s text) text)).
Proof.
  intros (HM & LB & LU & LP & _).
  split.
  - destruct (print_used_loop_spec (Z.to_nat MAX_MEMORY) 0 s) as [body Hbody];
      [lia|lia|congruence|].
    assert (H : forall t, same_arrays s t ->
              print_memory_used MAX_MEMORY t
                = Returns tt (emit t ("Current memory usage:" +:+ body +:+ newline))).
    { intros t St. unfold print_memory_used.
      rewrite (bind_returns _ _ _ _ _ (printf_emit _ t)).
      rewrite (bind_returns _ _ _ _ _ (Hbody _ (same_arrays_emit _ _ _ St))).
      rewrite printf_emit, !emit_emit. reflexivity. }
    eexists. split; [exact H|].
    rewrite (bind_returns _ _ _ _ _ (H s (same_arrays_refl s))).
    apply H. apply same_arrays_emit, same_arrays_refl.
  - destruct (print_value_loop_spec fmt_g MEMORY_BUFFER_addr
                (Z.to_nat MAX_MEMORY) 0 s) as [body Hbody];
      [lia|lia|congruence|congruence|].
    assert (H : forall t, same_arrays s t ->
              print_memory_value MAX_MEMORY fmt_g MEMORY_BUFFER_addr t
                = Returns tt (emit t ("Current memory values:" +:+ body +:+ newline))).
    { intros t St. unfold print_memory_value.
      rewrite (bind_returns _ _ _ _ _ (printf_emit _ t)).
      rewrite (bind_returns _ _ _ _ _ (Hbody _ (same_arrays_emit _ _ _ St))).
      rewrite printf_emit, !emit_emit. reflexivity. }
    eexists. split; [exact H|].
    rewrite (bind_returns _ _ _ _ _ (H s (same_arrays_refl s))).
    apply H. apply same_arrays_emit, same_arrays_refl.
Qed.

Lemma allocated10_well_formed : well_formed 10 allocated10.
Proof.
  split; [reflexivity|]. repeat (split; [reflexivity|]).
  intros k. simpl. lia.
Qed.

Lemma printing_reads_only_witness :
  exists text,
    print_memory_used 10 allocated10 = Returns tt (emit allocated10 text) /\
    MEMORY_USED (emit allocated10 text) = MEMORY_USED allocated10.
Proof.
  destruct (printing_reads_only 10 (fun _ => EmptyString) 0 allocated10
              allocated10_well_formed) as [(text & H & _) _].
  exists text. split; [apply H; apply same_arrays_refl|reflexivity].
Defined.

(** The usage map of the ten-slot example after the allocation. *)
Example print_memory_used_allocated10 :
  print_memory_used 10 allocated10 =
  Returns tt (emit allocated10
    ("Current memory usage:" +:+ newline +:+ "     0: ...xxx...." +:+ newline)).
Proof. vm_compute. reflexivity. Qed.

(** * Further properties of the code *)

(** ** Requests that cannot be served *)

(** X1: a request for more than MAX_MEMORY-2 slots ends in exit(1) in
    every state, because the block needs a guard slot inside the arena
    on either side. *)
Theorem my_malloc_too_large (MAX_MEMORY size : Z) (s : state) :
  well_formed MAX_MEMORY s ->
  MAX_MEMORY - 2 < slots_of size ->
  exists s', my_malloc MAX_MEMORY size s = Exits 1 s' /\
    MEMORY_USED s' = MEMORY_USED s.
Proof.
  intros WF Hbig.
  destruct (my_malloc_spec MAX_MEMORY (proj1 WF) size s WF)
    as [(st & s1 & E1 & Hst & Hu & W & _)|(s1 & E1 & _ & U & _)].
  - exfalso. destruct (W (slots_of size + 1)) as [Wb _]; lia.
  - exists s1. split; assumption.
Qed.

Lemma my_malloc_too_large_witness :
  exists s', my_malloc 450 (8 * 449) (fresh450 7) = Exits 1 s' /\
    MEMORY_USED s' = MEMORY_USED (fresh450 7).
Proof.
  exact (my_malloc_too_large 450 (8 * 449) (fresh450 7)
           (startup_well_formed 450 7 eq_refl ltac:(lia)) eq_refl).
Defined.

(** ** Sizes that are not positive *)





(** ** Handles and counts outside the arena *)

Section OutOfRange.

Variable MAX_MEMORY : Z.

Lemma tag_loop_overrun (cnt : nat) :
  forall (offset i : Z) (s : state),
    (0 < cnt)%nat ->
    offset + i < 0 \/
      Z.of_nat (length (MEMORY_IS_POINTER s)) < offset + i + Z.of_nat cnt ->
    tag_loop cnt offset i s = Undefined.
Proof.
  induction cnt as [|cnt IH]; intros offset i s Hcnt Hout; [lia|].
  simpl. unfold bind at 1.
  destruct (Z_lt_ge_dec (offset + i) 0) as [Hneg|Hpos].
  { unfold store_is_pointer, wr.
    destruct (Z.leb_spec 0 (offset + i)); [lia|]. reflexivity. }
  destruct (Z_lt_ge_dec (offset + i) (Z.of_nat (length (MEMORY_IS_POINTER s))))
    as [Hin|Hbeyond].
  - destruct (store_is_pointer_returns s (offset + i) true)
      as (s1 & E1 & _ & _ & (L1 & _)); [lia|].
    rewrite E1. apply IH; [lia|]. right. rewrite L1. lia.
  - unfold store_is_pointer, wr.
    destruct (Z.leb_spec 0 (offset + i)); [|lia].
    destruct (Z.ltb_spec (offset + i) (Z.of_nat (length (MEMORY_IS_POINTER s))));
      [lia|]. reflexivity.
Qed.

Lemma free_loop_negative (fuel : nat) (address : Z) (s : state) :
  address < 0 -> 0 < MAX_MEMORY ->
  free_loop MAX_MEMORY fuel address s = Undefined.
Proof.
  intros Hneg HM.
  assert (E : load_used address s = Undefined).
  { unfold load_used, rd. destruct (Z.leb_spec 0 address); [lia|reflexivity]. }
  destruct fuel; simpl;
    (destruct (Z.ltb_spec address MAX_MEMORY); [|lia]);
    unfold bind; rewrite E; reflexivity.
Qed.

End OutOfRange.

(** X3: set_print_as_pointer with a count that is not positive does
    nothing; with a positive count it tags exactly the slots
    ptr..ptr+n-1 and changes nothing else when they all lie inside the
    arena, and otherwise it writes outside MEMORY_IS_POINTER. *)
Theorem set_print_as_pointer_range (MAX_MEMORY ptr n : Z) (s : state) :
  length (MEMORY_IS_POINTER s) = Z.to_nat MAX_MEMORY ->
  0 <= MAX_MEMORY ->
  (n <= 0 -> set_print_as_pointer ptr n s = Returns tt s) /\
  (0 < n -> 0 <= ptr -> ptr + n <= MAX_MEMORY ->
   exists s', set_print_as_pointer ptr n s = Returns tt s' /\
     same_rest s s' /\
     MEMORY_USED s' = MEMORY_USED s /\
     updated_on (MEMORY_IS_POINTER s) (MEMORY_IS_POINTER s') ptr (ptr + n) true) /\
  (0 < n -> ptr < 0 \/ MAX_MEMORY < ptr + n ->
   set_print_as_pointer ptr n s = Undefined).
Proof.
  intros LP HM. unfold set_print_as_pointer. split; [|split].
  - intros Hn. replace (Z.to_nat n) with O by lia. reflexivity.
  - intros Hn Hptr Hfit.
    destruct (tag_loop_spec (Z.to_nat n) ptr 0 s) as (s' & E & R & U & P);
      [lia|rewrite LP; lia|].
    exists s'. split; [exact E|]. split; [exact R|]. split; [exact U|].
    rewrite Z.add_0_r in P.
    eapply updated_on_same_range; [|exact P]. intros j. lia.
  - intros Hn Hout. apply tag_loop_overrun; [lia|].
    rewrite LP. destruct Hout as [Hout|Hout]; [left; lia|right; lia].
Qed.

Lemma set_print_as_pointer_range_witness :
  set_print_as_pointer 9 2 allocated10 = Undefined /\
  set_print_as_pointer 3 0 allocated10 = Returns tt allocated10.
Proof.
  pose proof (set_print_as_pointer_range 10 9 2 allocated10 eq_refl ltac:(lia))
    as (_ & _ & H).
  pose proof (set_print_as_pointer_range 10 3 0 allocated10 eq_refl ltac:(lia))
    as (H0 & _).
  split; [apply H; lia|apply H0; lia].
Defined.

(** X4: my_free with a handle at or behind the end of the arena returns
    without touching anything, with a handle before the start of the
    arena it reads outside MEMORY_USED, and with any handle inside the
    arena it returns. *)
Theorem my_free_range (MAX_MEMORY ptr : Z) (s : state) :
  0 < MAX_MEMORY ->
  length (MEMORY_USED s) = Z.to_nat MAX_MEMORY ->
  (MAX_MEMORY <= ptr -> my_free MAX_MEMORY ptr s = Returns tt s) /\
  (ptr < 0 -> my_free MAX_MEMORY ptr s = Undefined) /\
  (0 <= ptr < MAX_MEMORY ->
   exists s', my_free MAX_MEMORY ptr s = Returns tt s' /\
     rd (MEMORY_USED s') ptr = Some false /\
     length (MEMORY_USED s') = Z.to_nat MAX_MEMORY).
Proof.
  intros HM LU. split; [|split].
  - intros Hge. unfold my_free.
    replace (Z.to_nat (MAX_MEMORY - ptr)) with O by lia. simpl.
    destruct (Z.ltb_spec ptr MAX_MEMORY); [lia|reflexivity].
  - intros Hneg. unfold my_free. apply free_loop_negative; assumption.
  - intros Hin.
    destruct (my_free_spec MAX_MEMORY ptr s ltac:(lia) LU)
      as (stop & s' & E & Hstop & _ & Hend & _ & _ & (UL & UI & UO)).
    exists s'. split; [exact E|]. split; [|congruence].
    destruct (Z.eq_dec stop ptr) as [->|Hne].
    + rewrite UO by lia. destruct Hend as [Hend|Hend]; [lia|exact Hend].
    + apply UI. lia.
Qed.

Lemma my_free_range_witness :
  my_free 10 10 allocated10 = Returns tt allocated10 /\
  my_free 10 (-1) allocated10 = Undefined.
Proof.
  pose proof (my_free_range 10 10 allocated10 eq_refl eq_refl) as (H & _).
  pose proof (my_free_range 10 (-1) allocated10 eq_refl eq_refl) as (_ & H' & _).
  split; [apply H; lia|apply H'; lia].
Defined.

(** ** Blocks of successive allocations *)

Lemma my_malloc_well_formed (MAX_MEMORY size h : Z) (s s' : state) :
  well_formed MAX_MEMORY s ->
  my_malloc MAX_MEMORY size s = Returns h s' ->
  well_formed MAX_MEMORY s'.
Proof.
  intros WF E.
  destruct (my_malloc_spec MAX_MEMORY (proj1 WF) size s WF)
    as [(st & s1 & E1 & _ & _ & _ & B & T & _ & _ & (UL & _) & (PL & _))|(s1 & E1 & _)];
    [|congruence].
  rewrite E in E1. injection E1 as _ <-.
  destruct WF as (HM & LB & LU & LP & Hr).
  split; [exact HM|]. split; [congruence|]. split; [congruence|].
  split; [congruence|]. intros k. rewrite T. apply Hr.
Qed.

(** X5: two successive allocations yield blocks with at least one free
    slot between them, and releasing the first block afterwards clears
    exactly its own slots: the second block stays used. *)
Theorem my_free_spares_later_block
    (MAX_MEMORY size1 size2 h1 h2 : Z) (s s1 s2 : state) :
  well_formed MAX_MEMORY s ->
  0 < size1 -> 0 < size2 ->
  my_malloc MAX_MEMORY size1 s = Returns h1 s1 ->
  my_malloc MAX_MEMORY size2 s1 = Returns h2 s2 ->
  (h1 + slots_of size1 < h2 \/ h2 + slots_of size2 < h1) /\
  exists s3,
    my_free MAX_MEMORY h1 s2 = Returns tt s3 /\
    (forall i, h1 <= i < h1 + slots_of size1 ->
       rd (MEMORY_USED s3) i = Some false) /\
    (forall i, ~ (h1 <= i < h1 + slots_of size1) ->
       rd (MEMORY_USED s3) i = rd (MEMORY_USED s2) i) /\
    (forall i, h2 <= i < h2 + slots_of size2 ->
       rd (MEMORY_USED s3) i = Some true).
Proof.
  intros WF Hs1 Hs2 E1 E2.
  pose proof (slots_of_pos size1 Hs1) as Hn1.
  pose proof (slots_of_pos size2 Hs2) as Hn2.
  pose proof (my_malloc_well_formed _ _ _ _ _ WF E1) as WF1.
  pose proof (my_malloc_well_formed _ _ _ _ _ WF1 E2) as WF2.
  destruct (my_malloc_spec MAX_MEMORY (proj1 WF) size1 s WF)
    as [(a & t1 & F1 & Ha & _ & Wa & _ & _ & _ & _ & Ua & _)|(t1 & F1 & _)];
    [|congruence].
  rewrite E1 in F1. injection F1 as -> <-.
  destruct (my_malloc_spec MAX_MEMORY (proj1 WF1) size2 s1 WF1)
    as [(b & t2 & F2 & Hb & _ & Wb & _ & _ & _ & _ & Ub & _)|(t2 & F2 & _)];
    [|congruence].
  rewrite E2 in F2. injection F2 as -> <-.
  set (n1 := slots_of size1) in *. set (n2 := slots_of size2) in *.
  destruct Ua as (_ & UaI & UaO). destruct Ub as (_ & UbI & UbO).
  assert (Gap : a + 1 + n1 < b + 1 \/ b + 1 + n2 < a + 1).
  { destruct (Z_lt_ge_dec (a + 1 + n1) (b + 1)) as [|H1]; [left; assumption|].
    destruct (Z_lt_ge_dec (b + 1 + n2) (a + 1)) as [|H2]; [right; assumption|].
    exfalso.
    destruct (Wb (Z.max (a + 1) b - b)) as [_ Wf]; [lia|].
    rewrite UaI in Wf by lia. discriminate. }
  split; [exact Gap|].
  destruct (my_free_spec MAX_MEMORY (a + 1) s2)
    as (stop & s3 & E3 & Hstop & Hrun & Hend & _ & _ & (_ & FI & FO));
    [lia|apply WF2|].
  assert (Used1 : forall i, a + 1 <= i < a + 1 + n1 ->
                            rd (MEMORY_USED s2) i = Some true).
  { intros i Hi. rewrite UbO by lia. apply UaI. exact Hi. }
  assert (Free1 : rd (MEMORY_USED s2) (a + 1 + n1) = Some false).
  { rewrite UbO by lia. rewrite UaO by lia.
    destruct (Wa (n1 + 1)) as [_ Wf]; [lia|].
    replace (a + 1 + n1) with (a + (n1 + 1)) by lia. exact Wf. }
  assert (stop = a + 1 + n1) as ->.
  { destruct (Z_lt_ge_dec stop (a + 1 + n1)) as [Hlt|Hge].
    - exfalso. destruct Hend as [Hend|Hend].
      + destruct (Wa (n1 + 1)) as [Wlt _]; lia.
      + rewrite Used1 in Hend by lia. discriminate.
    - destruct (Z.eq_dec stop (a + 1 + n1)) as [->|Hne]; [reflexivity|].
      exfalso. rewrite Hrun in Free1 by lia. discriminate. }
  exists s3. split; [exact E3|]. split; [exact FI|]. split; [exact FO|].
  intros i Hi. rewrite FO by lia. apply UbI. exact Hi.
Qed.

Lemma my_free_spares_later_block_witness :
  exists s2 s3,
    my_malloc 10 8 allocated10 = Returns 7 s2 /\
    my_free 10 3 s2 = Returns tt s3 /\
    rd (MEMORY_USED s3) 7 = Some true /\
    rd (MEMORY_USED s3) 3 = Some false.
Proof.
  assert (E2 : exists s2, my_malloc 10 8 allocated10 = Returns 7 s2)
    by (eexists; vm_compute; reflexivity).
  destruct E2 as [s2 E2]. exists s2.
  destruct (my_free_spares_later_block 10 24 8 3 7 fresh10 allocated10 s2
              (startup_well_formed 10 2 eq_refl (Z.le_0_2)) eq_refl eq_refl
              eq_refl E2)
    as (_ & s3 & E3 & H1 & _ & H2).
  exists s3. split; [exact E2|]. split; [exact E3|].
  split; [apply H2; change (slots_of 8) with 1; lia
         |apply H1; change (slots_of 24) with 3; lia].
Defined.

(** ** Allocation in an empty arena *)

Section EmptyArena.

Variable MAX_MEMORY : Z.
Hypothesis MAX_MEMORY_pos : 0 < MAX_MEMORY.

(** One pass of the search over an arena without used slots: the block
    is taken if its window ends inside the arena, otherwise the offset
    moves just past the end of the arena. *)
Lemma search_body_all_free (n search_start_address offset : Z) (s : state) :
  0 <= search_start_address -> 0 <= offset ->
  length (MEMORY_USED s) = Z.to_nat MAX_MEMORY ->
  length (MEMORY_IS_POINTER s) = Z.to_nat MAX_MEMORY ->
  all_free MAX_MEMORY s ->
  -2 < n ->
  let start := Z.rem (search_start_address + offset) MAX_MEMORY in
  (start + n + 1 < MAX_MEMORY ->
   exists s', search_body MAX_MEMORY n search_start_address offset s
                = Returns (Return (start + 1)) s' /\
              allocated s s' start n) /\
  (MAX_MEMORY <= start + n + 1 ->
   search_body MAX_MEMORY n search_start_address offset s
     = Returns (Continue (offset + (MAX_MEMORY - start + 1))) s).
Proof.
  intros Hssa Hoff LU LP Free Hn start.
  assert (Hstart : 0 <= start < MAX_MEMORY).
  { unfold start. apply Z.rem_bound_pos; lia. }
  split.
  - intros Hfit.
    destruct (search_body_spec MAX_MEMORY MAX_MEMORY_pos n search_start_address
                offset s Hssa Hoff LU LP) as [(o & _ & _ & NW)|(s' & E & _ & _ & Al)].
    + exfalso. apply NW; [exact Hn|]. intros i Hi.
      split; [fold start; lia|]. apply Free. fold start. lia.
    + exists s'. split; assumption.
  - intros Hover. unfold search_body. fold start.
    rewrite (bind_returns _ _ _ _ _
               (load_used_returns s _ _ (Free start Hstart))).
    destruct (window_loop_spec MAX_MEMORY (Z.to_nat (n + 2)) start 0 s)
      as [(k & E & Hk & Hstop & Hfree)|(E & Hfree)]; [lia|exact LU| |].
    + rewrite (bind_returns _ _ _ _ _ E).
      assert (k = MAX_MEMORY - start) as ->; [|reflexivity].
      assert (MAX_MEMORY <= start + k).
      { destruct Hstop as [Hstop|Hstop]; [exact Hstop|].
        destruct (Z_lt_ge_dec (start + k) MAX_MEMORY) as [Hin|]; [|lia].
        rewrite Free in Hstop by lia. discriminate. }
      destruct (Z_le_gt_dec k (MAX_MEMORY - start)) as [|Hgt]; [lia|].
      destruct (Hfree (k - 1)) as [Hb _]; lia.
    + exfalso. destruct (Hfree (n + 1)) as [Hb _]; lia.
Qed.

End EmptyArena.

(** X6: in an arena without used slots a request for at most
    MAX_MEMORY-3 slots always succeeds.  The block starts right behind
    the slot rand() % MAX_MEMORY if its window ends inside the arena, and
    at slot 2 otherwise; afterwards exactly the slots of the block are
    used. *)
Theorem my_malloc_empty_arena (MAX_MEMORY size : Z) (s : state) :
  well_formed MAX_MEMORY s ->
  all_free MAX_MEMORY s ->
  0 < size ->
  slots_of size <= MAX_MEMORY - 3 ->
  let n := slots_of size in
  let r := Z.rem (rand_tape s (rand_pos s)) MAX_MEMORY in
  let start := if r + n + 1 <? MAX_MEMORY then r else 1 in
  exists s',
    my_malloc MAX_MEMORY size s = Returns (start + 1) s' /\
    (forall i, rd (MEMORY_USED s') i = Some true <-> start + 1 <= i <= start + n).
Proof.
  intros WF Free Hsize Hfit n r start.
  pose proof (slots_of_pos size Hsize) as Hn. fold n in Hn, Hfit.
  destruct WF as (HM & LB & LU & LP & Hr).
  assert (Hrb : 0 <= r < MAX_MEMORY).
  { unfold r. apply Z.rem_bound_pos; [apply Hr|lia]. }
  unfold my_malloc. fold (slots_of size). fold n.
  unfold bind at 1, rand at 1. fold r.
  set (s0 := mkState _ _ _ _ _ _).
  assert (Free0 : all_free MAX_MEMORY s0) by exact Free.
  assert (Done : forall st s', 0 <= st -> st + n + 1 < MAX_MEMORY ->
            allocated s0 s' st n ->
            forall i, rd (MEMORY_USED s') i = Some true <-> st + 1 <= i <= st + n).
  { intros st s' Hst Hend (_ & (_ & UI & UO) & _) i. split.
    - intros Hi.
      destruct (Z_le_gt_dec (st + 1) i); [destruct (Z_lt_ge_dec i (st + 1 + n))|];
        [lia| |]; exfalso; rewrite UO in Hi by lia;
        (destruct (Z_le_gt_dec 0 i); [destruct (Z_lt_ge_dec i MAX_MEMORY)|]);
        try (rewrite Free0 in Hi by lia; discriminate);
        apply rd_Some_bounds in Hi; simpl in Hi; lia.
    - intros Hi. apply UI. lia. }
  assert (exists fuel, Z.to_nat MAX_MEMORY = S (S fuel)) as [fuel Efuel].
  { exists (Z.to_nat MAX_MEMORY - 2)%nat. lia. }
  rewrite Efuel. cbn [search_loop].
  destruct (Z.ltb_spec 0 MAX_MEMORY); [|lia].
  pose proof (search_body_all_free MAX_MEMORY HM n r 0 s0 (proj1 Hrb)
                (Z.le_refl 0) LU LP Free0 ltac:(lia)) as [Fit Over].
  rewrite Z.add_0_r, (Z.rem_small r MAX_MEMORY Hrb) in Fit, Over.
  unfold start. destruct (Z.ltb_spec (r + n + 1) MAX_MEMORY) as [Hlt|Hge].
  - destruct (Fit Hlt) as (s' & E & Al).
    rewrite (bind_returns _ _ _ _ _ E).
    exists s'. split; [reflexivity|]. apply Done; [lia|exact Hlt|exact Al].
  - rewrite (bind_returns _ _ _ _ _ (Over Hge)).
    destruct (Z.ltb_spec (0 + (MAX_MEMORY - r + 1)) MAX_MEMORY); [|lia].
    pose proof (search_body_all_free MAX_MEMORY HM n r
                  (0 + (MAX_MEMORY - r + 1)) s0 (proj1 Hrb) ltac:(lia)
                  LU LP Free0 ltac:(lia)) as [Fit1 _].
    replace (r + (0 + (MAX_MEMORY - r + 1))) with (1 + 1 * MAX_MEMORY) in Fit1
      by lia.
    rewrite Z.rem_add, (Z.rem_small 1 MAX_MEMORY) in Fit1 by lia.
    destruct (Fit1 ltac:(lia)) as (s' & E & Al).
    rewrite (bind_returns _ _ _ _ _ E).
    exists s'. split; [reflexivity|]. apply Done; [lia|lia|exact Al].
Qed.

Lemma startup_all_free (MAX_MEMORY : Z) (tape : nat -> Z) :
  all_free MAX_MEMORY (startup MAX_MEMORY tape).
Proof.
  intros i Hi. unfold rd, startup. cbn [MEMORY_USED].
  destruct (Z.leb_spec 0 i); [|lia].
  apply lookup_replicate_2. lia.
Qed.

Lemma my_malloc_empty_arena_witness :
  exists s', my_malloc 450 8 (fresh450 448) = Returns 2 s' /\
    (forall i, rd (MEMORY_USED s') i = Some true <-> 2 <= i <= 2).
Proof.
  refine (my_malloc_empty_arena 450 8 (fresh450 448)
            (startup_well_formed 450 448 eq_refl ltac:(lia))
            (startup_all_free 450 _) eq_refl
            ltac:(vm_compute; discriminate)).
Defined.

(** ** The garbage values of init_my_malloc *)

Lemma bytes_value_bounds (cnt : nat) :
  forall (tape : nat -> Z) (pos : nat),
    (forall k, 0 <= tape k) ->
    0 <= bytes_value cnt tape pos < 256 ^ Z.of_nat cnt.
Proof.
  induction cnt as [|cnt IH]; intros tape pos Hr.
  - simpl. lia.
  - cbn [bytes_value]. specialize (IH tape (S pos) Hr).
    pose proof (Z.rem_bound_pos (tape pos) UCHAR_MAX (Hr pos) eq_refl) as B.
    unfold UCHAR_MAX in *.
    rewrite Nat2Z.inj_succ, Z.pow_succ_r by lia. lia.
Qed.

Lemma bytes_value_byte (k : nat) :
  forall (cnt : nat) (tape : nat -> Z) (pos : nat),
    (k < cnt)%nat ->
    (forall j, 0 <= tape j) ->
    (bytes_value cnt tape pos / 256 ^ Z.of_nat k) mod 256
      = Z.rem (tape (pos + k)%nat) UCHAR_MAX.
Proof.
  induction k as [|k IH]; intros cnt tape pos Hk Hr;
    (destruct cnt as [|cnt]; [lia|]); cbn [bytes_value].
  - pose proof (Z.rem_bound_pos (tape pos) UCHAR_MAX (Hr pos) eq_refl) as B.
    unfold UCHAR_MAX in *.
    rewrite Nat.add_0_r. simpl (256 ^ Z.of_nat 0). rewrite Z.div_1_r.
    rewrite (Z.mul_comm 256), Z.mod_add by lia.
    apply Z.mod_small. lia.
  - pose proof (Z.rem_bound_pos (tape pos) UCHAR_MAX (Hr pos) eq_refl) as B.
    unfold UCHAR_MAX in *.
    rewrite Nat2Z.inj_succ, Z.pow_succ_r by lia.
    rewrite <- Z.div_div by lia.
    replace ((Z.rem (tape pos) 255 + 256 * bytes_value cnt tape (S pos)) / 256)
      with (bytes_value cnt tape (S pos)).
    + rewrite (IH cnt tape (S pos)) by (lia || assumption).
      replace (S pos + k)%nat with (pos + S k)%nat by lia. reflexivity.
    + rewrite (Z.mul_comm 256), Z.div_add by lia.
      rewrite (Z.div_small (Z.rem (tape pos) 255) 256) by lia. lia.
Qed.

Lemma double_rand_loop_value (cnt : nat) :
  forall (i resultBuff : Z) (s : state),
    0 <= i ->
    double_rand_loop cnt i resultBuff s =
      Returns (resultBuff + 2 ^ (8 * i) * bytes_value cnt (rand_tape s) (rand_pos s))
        (mkState (MEMORY_BUFFER s) (MEMORY_USED s) (MEMORY_IS_POINTER s)
                 (rand_tape s) (cnt + rand_pos s)%nat (stdout s)).
Proof.
  induction cnt as [|cnt IH]; intros i resultBuff s Hi.
  - cbn [double_rand_loop bytes_value]. unfold ret. destruct s. simpl.
    f_equal. lia.
  - cbn [double_rand_loop bytes_value]. unfold bind at 1, rand at 1.
    rewrite IH by lia. cbn [MEMORY_BUFFER MEMORY_USED MEMORY_IS_POINTER
                              rand_tape rand_pos stdout].
    rewrite Nat.add_succ_r. f_equal.
    rewrite Z.shiftl_mul_pow2 by lia.
    replace (8 * (i + 1)) with (8 * i + 8) by lia.
    rewrite Z.pow_add_r by lia. change (2 ^ 8) with 256. ring.
Qed.

(** X7: double_rand draws exactly eight numbers from rand() and returns
    the 64 bit pattern whose k-th byte is the k-th of them modulo
    UCHAR_MAX = 255; so every byte of a generated value lies between 0
    and 254 and the byte 255 never occurs. *)
Theorem double_rand_bytes (s : state) :
  (forall k, 0 <= rand_tape s k) ->
  exists v,
    double_rand s =
      Returns v (mkState (MEMORY_BUFFER s) (MEMORY_USED s) (MEMORY_IS_POINTER s)
                         (rand_tape s) (8 + rand_pos s)%nat (stdout s)) /\
    0 <= v < 2 ^ 64 /\
    forall k, (k < 8)%nat ->
      (v / 256 ^ Z.of_nat k) mod 256
        = Z.rem (rand_tape s (rand_pos s + k)%nat) UCHAR_MAX /\
      (v / 256 ^ Z.of_nat k) mod 256 < 255.
Proof.
  intros Hr. eexists. split; [|split].
  - unfold double_rand. apply double_rand_loop_value. lia.
  - simpl (2 ^ (8 * 0)). rewrite Z.add_0_l, Z.mul_1_l.
    pose proof (bytes_value_bounds 8 (rand_tape s) (rand_pos s) Hr) as B.
    change (256 ^ Z.of_nat 8) with (2 ^ 64) in B. exact B.
  - intros k Hk. simpl (2 ^ (8 * 0)). rewrite Z.add_0_l, Z.mul_1_l.
    rewrite bytes_value_byte by assumption.
    split; [reflexivity|].
    pose proof (Z.rem_bound_pos (rand_tape s (rand_pos s + k)%nat) UCHAR_MAX
                  (Hr _) eq_refl) as B.
    unfold UCHAR_MAX in *. lia.
Qed.

Lemma double_rand_bytes_witness :
  exists v, double_rand (fresh450 511) =
    Returns v (mkState (MEMORY_BUFFER (fresh450 511)) (MEMORY_USED (fresh450 511))
                 (MEMORY_IS_POINTER (fresh450 511)) (fun _ => 511) 8 EmptyString) /\
    (v / 256 ^ 3) mod 256 = 1.
Proof.
  destruct (double_rand_bytes (fresh450 511) (fun _ => ltac:(simpl; lia)))
    as (v & E & _ & H).
  exists v. split; [exact E|]. exact (proj1 (H 3%nat ltac:(lia))).
Defined.

Section InitValues.

Variable MAX_MEMORY : Z.

Lemma init_loop_values (cnt : nat) :
  forall (i : Z) (s : state),
    0 <= i ->
    i + Z.of_nat cnt <= Z.of_nat (length (MEMORY_USED s)) ->
    length (MEMORY_BUFFER s) = length (MEMORY_USED s) ->
    exists s', init_loop cnt i s = Returns tt s' /\
      MEMORY_IS_POINTER s' = MEMORY_IS_POINTER s /\
      rand_tape s' = rand_tape s /\
      rand_pos s' = (8 * cnt + rand_pos s)%nat /\
      stdout s' = stdout s /\
      length (MEMORY_BUFFER s') = length (MEMORY_BUFFER s) /\
      updated_on (MEMORY_USED s) (MEMORY_USED s') i (i + Z.of_nat cnt) false /\
      (forall j, (j < cnt)%nat ->
         rd (MEMORY_BUFFER s') (i + Z.of_nat j)
           = Some (bytes_value 8 (rand_tape s) (rand_pos s + 8 * j))) /\
      (forall j, ~ (i <= j < i + Z.of_nat cnt) ->
         rd (MEMORY_BUFFER s') j = rd (MEMORY_BUFFER s) j).
Proof.
  induction cnt as [|cnt IH]; intros i s Hpos Hhi Hlen.
  - exists s. split; [reflexivity|]. repeat (split; [reflexivity|]).
    split; [rewrite Z.add_0_r; apply updated_on_refl|].
    split; [intros j Hj; lia|reflexivity].
  - cbn [init_loop].
    destruct (store_used_returns s i false) as (s1 & E1 & R1 & P1 & U1); [lia|].
    rewrite (bind_returns _ _ _ _ _ E1).
    destruct R1 as (B1 & T1 & N1 & O1). destruct U1 as (L1 & I1 & X1).
    unfold double_rand.
    rewrite (bind_returns _ _ _ _ _ (double_rand_loop_value 8 0 0 s1 (Z.le_refl 0))).
    simpl (2 ^ (8 * 0)). rewrite Z.add_0_l, Z.mul_1_l.
    set (v := bytes_value 8 (rand_tape s1) (rand_pos s1)).
    unfold bind at 1, store_buffer at 1.
    cbn [MEMORY_BUFFER MEMORY_USED MEMORY_IS_POINTER rand_tape rand_pos stdout].
    pose proof (wr_in_bounds (MEMORY_BUFFER s1) i v) as Ew.
    rewrite Ew by (rewrite B1, Hlen; lia).
    specialize (Ew ltac:(rewrite B1, Hlen; lia)).
    set (s2 := mkState _ _ _ _ _ _).
    destruct (IH (i + 1) s2) as (s3 & E3 & P3 & T3 & N3 & O3 & L3 & U3 & V3 & K3).
    { lia. }
    { unfold s2. cbn [MEMORY_USED]. rewrite L1. lia. }
    { unfold s2. cbn [MEMORY_BUFFER MEMORY_USED].
      rewrite length_insert. congruence. }
    rewrite E3. exists s3. split; [reflexivity|].
    unfold s2 in P3, T3, N3, O3, L3, U3, V3, K3.
    cbn [MEMORY_BUFFER MEMORY_USED MEMORY_IS_POINTER rand_tape rand_pos stdout]
      in P3, T3, N3, O3, L3, U3, V3, K3.
    split; [congruence|]. split; [congruence|].
    split; [rewrite N3, N1; lia|]. split; [congruence|].
    split; [rewrite L3, length_insert; congruence|].
    split.
    { replace (i + Z.of_nat (S cnt)) with (i + 1 + Z.of_nat cnt) by lia.
      apply updated_on_trans with (b := MEMORY_USED s1) (mid := i + 1);
        [lia| |exact U3].
      split; [exact L1|]. split; assumption. }
    split.
    + intros j Hj. destruct j as [|j].
      * rewrite Z.add_0_r, K3 by lia.
        rewrite (rd_wr_same _ _ _ _ Ew). unfold v.
        rewrite T1, N1. do 2 f_equal. lia.
      * replace (i + Z.of_nat (S j)) with (i + 1 + Z.of_nat j) by lia.
        rewrite V3 by lia. rewrite T1, N1. do 2 f_equal. lia.
    + intros j Hj. rewrite K3 by lia.
      rewrite (rd_wr_other _ _ _ _ _ Ew) by lia. rewrite B1. reflexivity.
Qed.

End InitValues.

(** X8: on arrays of MAX_MEMORY elements init_my_malloc returns with
    every slot free and with slot i holding the bytes that the seeded
    sequence yields at positions 8i..8i+7, each taken modulo 255; it has
    drawn 8*MAX_MEMORY random numbers, and it leaves the pointer tags and
    the output as they were (a second init does not clear stale tags). *)
Theorem init_my_malloc_fills_arena (MAX_MEMORY : Z) (seeded : nat -> Z)
    (s : state) :
  0 < MAX_MEMORY ->
  length (MEMORY_BUFFER s) = Z.to_nat MAX_MEMORY ->
  length (MEMORY_USED s) = Z.to_nat MAX_MEMORY ->
  length (MEMORY_IS_POINTER s) = Z.to_nat MAX_MEMORY ->
  (forall k, 0 <= seeded k) ->
  exists s',
    init_my_malloc MAX_MEMORY seeded s = Returns tt s' /\
    well_formed MAX_MEMORY s' /\
    all_free MAX_MEMORY s' /\
    (forall i, (i < Z.to_nat MAX_MEMORY)%nat ->
       rd (MEMORY_BUFFER s') (Z.of_nat i) = Some (bytes_value 8 seeded (8 * i))) /\
    rand_tape s' = seeded /\
    rand_pos s' = (8 * Z.to_nat MAX_MEMORY)%nat /\
    MEMORY_IS_POINTER s' = MEMORY_IS_POINTER s /\
    stdout s' = stdout s.
Proof.
  intros HM LB LU LP Hr. unfold init_my_malloc.
  unfold bind at 1, srand at 1.
  set (s0 := mkState _ _ _ _ _ _).
  destruct (init_loop_values (Z.to_nat MAX_MEMORY) 0 s0)
    as (s' & E & P & T & N & O & L & (UL & UI & _) & V & _).
  { lia. }
  { unfold s0. cbn [MEMORY_USED]. lia. }
  { unfold s0. cbn [MEMORY_BUFFER MEMORY_USED]. congruence. }
  unfold s0 in P, T, N, O, L, UL, UI, V.
  cbn [MEMORY_BUFFER MEMORY_USED MEMORY_IS_POINTER rand_tape rand_pos stdout]
    in P, T, N, O, L, UL, UI, V.
  rewrite E. exists s'. split; [reflexivity|].
  split.
  { split; [exact HM|]. split; [congruence|]. split; [congruence|].
    split; [congruence|]. intros k. rewrite T. apply Hr. }
  split; [intros i Hi; apply UI; lia|].
  split; [intros i Hi; exact (V i Hi)|].
  split; [exact T|]. split; [rewrite N; lia|]. split; [exact P|exact O].
Qed.

Lemma init_my_malloc_fills_arena_witness :
  exists s',
    init_my_malloc 450 (fun _ => 511) (fresh450 0) = Returns tt s' /\
    rd (MEMORY_BUFFER s') 449 = Some 72340172838076673 /\
    rand_pos s' = 3600%nat.
Proof.
  destruct (init_my_malloc_fills_arena 450 (fun _ => 511) (fresh450 0)
              eq_refl eq_refl eq_refl eq_refl (fun _ => ltac:(lia)))
    as (s' & E & _ & _ & V & _ & N & _).
  exists s'. split; [exact E|]. split; [|exact N].
  exact (V 449%nat ltac:(lia)).
Defined.

(** ** Whole client programs *)

Section Programs.

Variable MAX_MEMORY : Z.
Variable fmt_g : Z -> string.
Variable MEMORY_BUFFER_addr : Z.

Lemma print_memory_used_returns (s : state) :
  well_formed MAX_MEMORY s ->
  exists text, print_memory_used MAX_MEMORY s = Returns tt (emit s text).
Proof.
  intros (HM & LB & LU & LP & _).
  destruct (print_used_loop_spec (Z.to_nat MAX_MEMORY) 0 s) as [body Hbody];
    [lia|lia|congruence|].
  eexists. unfold print_memory_used.
  rewrite (bind_returns _ _ _ _ _ (printf_emit _ s)).
  rewrite (bind_returns _ _ _ _ _
             (Hbody _ (same_arrays_emit _ _ _ (same_arrays_refl s)))).
  rewrite printf_emit, !emit_emit. reflexivity.
Qed.

Lemma print_memory_value_returns (s : state) :
  well_formed MAX_MEMORY s ->
  exists text,
    print_memory_value MAX_MEMORY fmt_g MEMORY_BUFFER_addr s
      = Returns tt (emit s text).
Proof.
  intros (HM & LB & LU & LP & _).
  destruct (print_value_loop_spec fmt_g MEMORY_BUFFER_addr
              (Z.to_nat MAX_MEMORY) 0 s) as [body Hbody];
    [lia|lia|congruence|congruence|].
  eexists. unfold print_memory_value.
  rewrite (bind_returns _ _ _ _ _ (printf_emit _ s)).
  rewrite (bind_returns _ _ _ _ _
             (Hbody _ (same_arrays_emit _ _ _ (same_arrays_refl s)))).
  rewrite printf_emit, !emit_emit. reflexivity.
Qed.

(** What every call keeps: the shape of the state and the two free slots
    at the ends of the arena. *)
Lemma run_call_keeps (c : call) (s s' : state) :
  well_formed MAX_MEMORY s ->
  ends_free MAX_MEMORY s ->
  call_ok c ->
  run_call MAX_MEMORY fmt_g MEMORY_BUFFER_addr c s = Returns tt s' ->
  well_formed MAX_MEMORY s' /\ ends_free MAX_MEMORY s'.
Proof.
  intros WF (F0 & F1) Hok E.
  pose proof WF as (HM & LB & LU & LP & Hr).
  destruct c as [seeded|size|ptr n|ptr| |]; cbn [run_call] in E.
  - destruct (init_my_malloc_spec MAX_MEMORY seeded s HM LB LU LP Hok)
      as (t & Et & WFt & _ & _ & Ft).
    rewrite Et in E. injection E as <-.
    split; [exact WFt|]. split; apply Ft; lia.
  - unfold bind in E.
    destruct (my_malloc MAX_MEMORY size s) as [h t| | |] eqn:Em;
      try discriminate.
    unfold ret in E. injection E as <-.
    split; [eapply my_malloc_well_formed; eauto|].
    destruct (my_malloc_spec MAX_MEMORY HM size s WF)
      as [(st & t' & Et & Hst & _ & W & _ & _ & _ & _ & (_ & _ & UO) & _)
         |(t' & Et & _)]; [|congruence].
    rewrite Em in Et. injection Et as _ <-.
    assert (Hend : 1 <= slots_of size -> st + 1 + slots_of size <= MAX_MEMORY - 1).
    { intros Hn. destruct (W (slots_of size + 1)) as [Wb _]; lia. }
    split; rewrite UO by lia; assumption.
  - assert (Keep : MEMORY_USED s' = MEMORY_USED s /\
                   MEMORY_BUFFER s' = MEMORY_BUFFER s /\
                   rand_tape s' = rand_tape s /\
                   length (MEMORY_IS_POINTER s') = length (MEMORY_IS_POINTER s)).
    { unfold set_print_as_pointer in E.
      destruct (Z_le_gt_dec n 0) as [Hn|Hn].
      { replace (Z.to_nat n) with O in E by lia.
        cbn [tag_loop] in E. unfold ret in E. injection E as <-. auto. }
      destruct (Z_lt_ge_dec ptr 0) as [Hneg|Hpos].
      { rewrite tag_loop_overrun in E by lia. discriminate. }
      destruct (Z_lt_ge_dec MAX_MEMORY (ptr + n)) as [Hover|Hfit].
      { rewrite tag_loop_overrun in E by lia. discriminate. }
      destruct (tag_loop_spec (Z.to_nat n) ptr 0 s)
        as (t & Et & (B & T & _) & U & (L & _)); [lia|lia|].
      rewrite Et in E. injection E as <-. auto. }
    destruct Keep as (KU & KB & KT & KL).
    split; [|unfold ends_free; rewrite KU; split; assumption].
    split; [exact HM|]. split; [congruence|]. split; [congruence|].
    split; [congruence|]. intros k. rewrite KT. apply Hr.
  - destruct (Z_lt_ge_dec ptr 0) as [Hneg|Hpos].
    { unfold my_free in E. rewrite free_loop_negative in E by assumption.
      discriminate. }
    destruct (my_free_spec MAX_MEMORY ptr s ltac:(lia) LU)
      as (stop & t & Et & _ & _ & _ & (B & T & _) & P & (L & UI & UO)).
    rewrite Et in E. injection E as <-.
    split.
    { split; [exact HM|]. split; [congruence|]. split; [congruence|].
      split; [congruence|]. intros k. rewrite T. apply Hr. }
    assert (Cleared : forall i, rd (MEMORY_USED s) i = Some false ->
                                rd (MEMORY_USED t) i = Some false).
    { intros i Hi.
      destruct (Z_le_gt_dec ptr i); [destruct (Z_lt_ge_dec i stop)|];
        [apply UI; lia| |]; rewrite UO by lia; exact Hi. }
    split; apply Cleared; assumption.
  - destruct (print_memory_used_returns s WF) as [text Et].
    rewrite Et in E. injection E as <-.
    split; [exact WF|split; assumption].
  - destruct (print_memory_value_returns s WF) as [text Et].
    rewrite Et in E. injection E as <-.
    split; [exact WF|split; assumption].
Qed.

Lemma run_calls_keep (cs : list call) :
  forall (s s' : state),
    well_formed MAX_MEMORY s ->
    ends_free MAX_MEMORY s ->
    Forall call_ok cs ->
    run_calls MAX_MEMORY fmt_g MEMORY_BUFFER_addr cs s = Returns tt s' ->
    well_formed MAX_MEMORY s' /\ ends_free MAX_MEMORY s'.
Proof.
  induction cs as [|c cs IH]; intros s s' WF EF Hok E.
  - cbn [run_calls] in E. unfold ret in E. injection E as <-. auto.
  - cbn [run_calls] in E. unfold bind in E.
    destruct (run_call MAX_MEMORY fmt_g MEMORY_BUFFER_addr c s)
      as [[] t| | |] eqn:Ec; try discriminate.
    apply Forall_cons in Hok as [Hc Hcs].
    destruct (run_call_keeps c s t WF EF Hc Ec) as [WFt EFt].
    exact (IH t s' WFt EFt Hcs E).
Qed.

End Programs.

(** X9: whatever calls a client makes after init_my_malloc, with
    whatever sizes, handles and counts, as long as they all return, the
    first and the last slot of the arena are never marked used and the
    three arrays keep their MAX_MEMORY elements: the arena serves at most
    MAX_MEMORY-2 slots. *)
Theorem arena_ends_never_used (MAX_MEMORY : Z) (fmt_g : Z -> string)
    (MEMORY_BUFFER_addr : Z) (seeded : nat -> Z) (cs : list call)
    (s s' : state) :
  well_formed MAX_MEMORY s ->
  Forall call_ok (CallInit seeded :: cs) ->
  run_calls MAX_MEMORY fmt_g MEMORY_BUFFER_addr (CallInit seeded :: cs) s
    = Returns tt s' ->
  well_formed MAX_MEMORY s' /\
  rd (MEMORY_USED s') 0 = Some false /\
  rd (MEMORY_USED s') (MAX_MEMORY - 1) = Some false.
Proof.
  intros WF Hok E.
  pose proof WF as (HM & LB & LU & LP & Hr).
  apply Forall_cons in Hok as [Hc Hcs].
  cbn [run_calls run_call] in E. unfold bind in E.
  destruct (init_my_malloc_spec MAX_MEMORY seeded s HM LB LU LP Hc)
    as (t & Et & WFt & _ & _ & Ft).
  rewrite Et in E.
  exact (run_calls_keep MAX_MEMORY fmt_g MEMORY_BUFFER_addr cs t s' WFt
           (conj (Ft 0 ltac:(lia)) (Ft (MAX_MEMORY - 1) ltac:(lia))) Hcs E).
Qed.

Lemma arena_ends_never_used_witness :
  exists s',
    run_calls 10 (fun _ => EmptyString) 0
      [CallInit (fun _ => 2); CallMalloc 24; CallSetPointer 3 2;
       CallMalloc 8; CallFree 3; CallPrintUsed] fresh10 = Returns tt s' /\
    rd (MEMORY_USED s') 0 = Some false /\
    rd (MEMORY_USED s') 9 = Some false.
Proof.
  assert (E : exists s', run_calls 10 (fun _ => EmptyString) 0
      [CallInit (fun _ => 2); CallMalloc 24; CallSetPointer 3 2;
       CallMalloc 8; CallFree 3; CallPrintUsed] fresh10 = Returns tt s')
    by (eexists; vm_compute; reflexivity).
  destruct E as [s' E]. exists s'. split; [exact E|].
  refine (proj2 (arena_ends_never_used 10 (fun _ => EmptyString) 0
                   (fun _ => 2) _ fresh10 s'
                   (startup_well_formed 10 2 eq_refl (Z.le_0_2)) _ E)).
  repeat constructor. intros k. lia.
Defined.

(** ** What the maps show *)

Section Maps.

Variable MAX_MEMORY : Z.
Variable fmt_g : Z -> string.
Variable MEMORY_BUFFER_addr : Z.

Lemma print_used_loop_step (cnt : nat) (i : Z) (s : state) (u p : bool) :
  rd (MEMORY_USED s) i = Some u ->
  (u = true -> rd (MEMORY_IS_POINTER s) i = Some p) ->
  print_used_loop (S cnt) i s =
  print_used_loop cnt (i + 1)
    (emit s ((if Z.rem i cols =? 0
              then newline +:+ fmt_d 6 i +:+ ": " else EmptyString)
             +:+ used_mark u p)).
Proof.
  intros Hu Hp. cbn [print_used_loop].
  set (head := if Z.rem i cols =? 0
               then newline +:+ fmt_d 6 i +:+ ": " else EmptyString).
  assert (E0 : (if Z.rem i cols =? 0
                then printf (newline +:+ fmt_d 6 i +:+ ": ") else ret tt) s
               = Returns tt (emit s head)).
  { unfold head. destruct (Z.rem i cols =? 0); [reflexivity|].
    rewrite emit_empty. reflexivity. }
  rewrite (bind_returns _ _ _ _ _ E0).
  unfold bind at 1.
  rewrite (bind_returns _ _ _ u (emit s head))
    by (apply load_used_returns; exact Hu).
  destruct u.
  - rewrite (bind_returns _ _ _ p (emit s head))
      by (apply load_is_pointer_returns; apply Hp; reflexivity).
    destruct p; rewrite printf_emit, emit_emit; reflexivity.
  - rewrite printf_emit, emit_emit. reflexivity.
Qed.

Lemma print_value_loop_step (cnt : nat) (i : Z) (s : state) (u p : bool) (v : Z) :
  rd (MEMORY_USED s) i = Some u ->
  (u = true -> rd (MEMORY_IS_POINTER s) i = Some p /\
               rd (MEMORY_BUFFER s) i = Some v) ->
  print_value_loop fmt_g MEMORY_BUFFER_addr (S cnt) i s =
  print_value_loop fmt_g MEMORY_BUFFER_addr cnt (i + 1)
    (emit s ((if Z.rem i cols =? 0
              then newline +:+ fmt_d 6 i +:+ ":" else EmptyString)
             +:+ value_field fmt_g MEMORY_BUFFER_addr u p v)).
Proof.
  intros Hu Hp. cbn [print_value_loop].
  set (head := if Z.rem i cols =? 0
               then newline +:+ fmt_d 6 i +:+ ":" else EmptyString).
  assert (E0 : (if Z.rem i cols =? 0
                then printf (newline +:+ fmt_d 6 i +:+ ":") else ret tt) s
               = Returns tt (emit s head)).
  { unfold head. destruct (Z.rem i cols =? 0); [reflexivity|].
    rewrite emit_empty. reflexivity. }
  rewrite (bind_returns _ _ _ _ _ E0).
  unfold bind at 1.
  rewrite (bind_returns _ _ _ u (emit s head))
    by (apply load_used_returns; exact Hu).
  destruct u.
  - destruct (Hp eq_refl) as [Hp1 Hp2].
    rewrite (bind_returns _ _ _ p (emit s head))
      by (apply load_is_pointer_returns; exact Hp1).
    destruct p;
      (rewrite (bind_returns _ _ _ v (emit s head))
         by (apply load_buffer_returns; exact Hp2));
      rewrite printf_emit, emit_emit; reflexivity.
  - rewrite printf_emit, emit_emit. reflexivity.
Qed.

Lemma print_loops_agree (cnt : nat) :
  forall (i : Z) (s t : state),
    0 <= i ->
    i + Z.of_nat cnt <= MAX_MEMORY ->
    well_formed MAX_MEMORY s ->
    well_formed MAX_MEMORY t ->
    same_used_slots s t ->
    exists used_rows value_rows,
      forall s1, same_arrays s s1 \/ same_arrays t s1 ->
        print_used_loop cnt i s1 = Returns tt (emit s1 used_rows) /\
        print_value_loop fmt_g MEMORY_BUFFER_addr cnt i s1
          = Returns tt (emit s1 value_rows).
Proof.
  induction cnt as [|cnt IH]; intros i s t Hpos Hhi WFs WFt Same.
  - exists EmptyString, EmptyString. intros s1 _.
    rewrite emit_empty. split; reflexivity.
  - destruct (IH (i + 1) s t) as (ur & vr & Hrest); [lia|lia|assumption..|].
    pose proof WFs as (HM & LBs & LUs & LPs & _).
    pose proof WFt as (_ & LBt & LUt & LPt & _).
    destruct Same as (SU & SV).
    destruct (rd_in_bounds (MEMORY_USED s) i) as [u Hu]; [lia|].
    destruct (rd_in_bounds (MEMORY_IS_POINTER s) i) as [p Hp]; [lia|].
    destruct (rd_in_bounds (MEMORY_BUFFER s) i) as [v Hv]; [lia|].
    eexists _, _. intros s1 Hs1.
    assert (Hu1 : rd (MEMORY_USED s1) i = Some u).
    { destruct Hs1 as [(_ & E & _)|(_ & E & _)]; rewrite E; congruence. }
    assert (Hpv1 : u = true -> rd (MEMORY_IS_POINTER s1) i = Some p /\
                               rd (MEMORY_BUFFER s1) i = Some v).
    { intros ->. destruct (SV i Hu) as [SP SB].
      destruct Hs1 as [(EB & _ & EP)|(EB & _ & EP)]; rewrite EB, EP;
        split; congruence. }
    rewrite (print_used_loop_step cnt i s1 u p Hu1 (fun H => proj1 (Hpv1 H))).
    rewrite (print_value_loop_step cnt i s1 u p v Hu1 Hpv1).
    assert (Hs2 : forall text, same_arrays s (emit s1 text) \/
                               same_arrays t (emit s1 text)).
    { intros text. destruct Hs1 as [H|H]; [left|right]; exact H. }
    split.
    + rewrite (proj1 (Hrest _ (Hs2 _))), emit_emit. reflexivity.
    + rewrite (proj2 (Hrest _ (Hs2 _))), emit_emit. reflexivity.
Qed.

End Maps.

(** X10: the two maps show nothing of the free slots: two arenas with
    the same used flags that agree on the tags and values of the used
    slots get the same text from print_memory_used and the same text from
    print_memory_value, whatever garbage and stale tags their free slots
    hold. *)
Theorem maps_ignore_free_slots (MAX_MEMORY : Z) (fmt_g : Z -> string)
    (MEMORY_BUFFER_addr : Z) (s t : state) :
  well_formed MAX_MEMORY s ->
  well_formed MAX_MEMORY t ->
  same_used_slots s t ->
  exists used_map value_map,
    print_memory_used MAX_MEMORY s = Returns tt (emit s used_map) /\
    print_memory_used MAX_MEMORY t = Returns tt (emit t used_map) /\
    print_memory_value MAX_MEMORY fmt_g MEMORY_BUFFER_addr s
      = Returns tt (emit s value_map) /\
    print_memory_value MAX_MEMORY fmt_g MEMORY_BUFFER_addr t
      = Returns tt (emit t value_map).
Proof.
  intros WFs WFt Same.
  destruct (print_loops_agree MAX_MEMORY fmt_g MEMORY_BUFFER_addr
              (Z.to_nat MAX_MEMORY) 0 s t) as (ur & vr & H);
    [lia|destruct WFs; lia|assumption..|].
  assert (P : forall s1, same_arrays s s1 \/ same_arrays t s1 ->
            print_memory_used MAX_MEMORY s1
              = Returns tt (emit s1 ("Current memory usage:" +:+ ur +:+ newline)) /\
            print_memory_value MAX_MEMORY fmt_g MEMORY_BUFFER_addr s1
              = Returns tt (emit s1 ("Current memory values:" +:+ vr +:+ newline))).
  { intros s1 Hs1. unfold print_memory_used, print_memory_value.
    rewrite !(bind_returns _ _ _ _ _ (printf_emit _ s1)).
    assert (Hs2 : forall text, same_arrays s (emit s1 text) \/
                               same_arrays t (emit s1 text)).
    { intros text. destruct Hs1 as [H1|H1]; [left|right]; exact H1. }
    rewrite (bind_returns _ _ _ _ _ (proj1 (H _ (Hs2 _)))).
    rewrite (bind_returns _ _ _ _ _ (proj2 (H _ (Hs2 _)))).
    rewrite !printf_emit, !emit_emit. split; reflexivity. }
  eexists _, _.
  split; [exact (proj1 (P s (or_introl (same_arrays_refl s))))|].
  split; [exact (proj1 (P t (or_intror (same_arrays_refl t))))|].
  split; [exact (proj2 (P s (or_introl (same_arrays_refl s))))|].
  exact (proj2 (P t (or_intror (same_arrays_refl t)))).
Qed.

Lemma allocated10_stale_well_formed : well_formed 10 allocated10_stale.
Proof.
  split; [reflexivity|]. repeat (split; [reflexivity|]).
  intros k. simpl. lia.
Qed.

Lemma maps_ignore_free_slots_witness :
  exists used_map value_map,
    print_memory_used 10 allocated10 = Returns tt (emit allocated10 used_map) /\
    print_memory_used 10 allocated10_stale
      = Returns tt (emit allocated10_stale used_map) /\
    print_memory_value 10 (fun _ => "  0.0") 0 allocated10
      = Returns tt (emit allocated10 value_map) /\
    print_memory_value 10 (fun _ => "  0.0") 0 allocated10_stale
      = Returns tt (emit allocated10_stale value_map).
Proof.
  apply (maps_ignore_free_slots 10 (fun _ => "  0.0") 0 allocated10
           allocated10_stale allocated10_well_formed
           allocated10_stale_well_formed).
  split; [reflexivity|]. intros i Hi.
  assert (i = 3 \/ i = 4 \/ i = 5) as [->|[->| ->]]; [|split; reflexivity..].
  pose proof (rd_Some_bounds _ _ _ Hi) as B. simpl in B.
  assert (i = 0 \/ i = 1 \/ i = 2 \/ i = 3 \/ i = 4 \/ i = 5 \/
          i = 6 \/ i = 7 \/ i = 8 \/ i = 9) as Hc by lia.
  destruct Hc as [->|[->|[->|[->|[->|[->|[->|[->|[->| ->]]]]]]]]];
    try discriminate Hi; auto.
Defined.

(** ** Which fits the scan can miss *)

Lemma rem_shift (a d m : Z) :
  0 < m -> 0 <= a -> 0 <= d ->
  (Z.rem a m + d < m -> Z.rem (a + d) m = Z.rem a m + d) /\
  (Z.rem a m + d = m -> Z.rem (a + d) m = 0).
Proof.
  intros Hm Ha Hd.
  rewrite !Z.rem_mod_nonneg by lia.
  pose proof (Z.mod_pos_bound a m Hm) as B.
  pose proof (Z.div_mod a m ltac:(lia)) as E.
  split; intros H; symmetry.
  - apply (Zmod_unique (a + d) m (a / m)); lia.
  - apply (Zmod_unique (a + d) m (a / m + 1)); lia.
Qed.

Lemma rem_reaches (a p m : Z) :
  0 <= a -> 0 <= p < m ->
  exists o, 0 <= o < m /\ Z.rem (a + o) m = p.
Proof.
  intros Ha Hp. exists ((p - a) mod m).
  pose proof (Z.mod_pos_bound (p - a) m ltac:(lia)) as B.
  split; [exact B|].
  rewrite Z.rem_mod_nonneg by lia.
  rewrite Z.add_mod_idemp_r by lia.
  replace (a + (p - a)) with p by lia. apply Z.mod_small. exact Hp.
Qed.

Section Skipped.

Variable MAX_MEMORY : Z.
Hypothesis MAX_MEMORY_pos : 0 < MAX_MEMORY.

(** The positions a pass jumps over have no free window, except that a
    jump over the end of the arena also passes position 0 untested. *)
Lemma search_body_skips (n search_start_address offset offset' : Z)
    (s s' : state) :
  0 <= search_start_address -> 0 <= offset ->
  length (MEMORY_USED s) = Z.to_nat MAX_MEMORY ->
  -2 < n ->
  search_body MAX_MEMORY n search_start_address offset s
    = Returns (Continue offset') s' ->
  forall o, offset <= o < offset' ->
    window_free MAX_MEMORY (MEMORY_USED s)
                (Z.rem (search_start_address + o) MAX_MEMORY) n ->
    Z.rem (search_start_address + o) MAX_MEMORY = 0 /\ offset < o.
Proof.
  intros Hssa Hoff LU Hn.
  assert (Hstart : 0 <= Z.rem (search_start_address + offset) MAX_MEMORY
                   < MAX_MEMORY) by (apply Z.rem_bound_pos; lia).
  assert (Shift : forall o, offset <= o ->
            (Z.rem (search_start_address + offset) MAX_MEMORY + (o - offset)
               < MAX_MEMORY ->
             Z.rem (search_start_address + o) MAX_MEMORY
               = Z.rem (search_start_address + offset) MAX_MEMORY + (o - offset)) /\
            (Z.rem (search_start_address + offset) MAX_MEMORY + (o - offset)
               = MAX_MEMORY ->
             Z.rem (search_start_address + o) MAX_MEMORY = 0)).
  { intros o Ho.
    replace (search_start_address + o)
      with (search_start_address + offset + (o - offset)) by lia.
    apply rem_shift; lia. }
  unfold search_body.
  set (start := Z.rem (search_start_address + offset) MAX_MEMORY) in *.
  destruct (rd_in_bounds (MEMORY_USED s) start) as [u Hu]; [lia|].
  rewrite (bind_returns _ _ _ _ _ (load_used_returns s _ _ Hu)).
  destruct u.
  - unfold ret. intros H. injection H as <- _. intros o Ho W.
    assert (o = offset) as -> by lia. exfalso.
    destruct (W 0) as [_ W0]; [lia|].
    rewrite Z.add_0_r in W0. fold start in W0. congruence.
  - destruct (window_loop_spec MAX_MEMORY (Z.to_nat (n + 2)) start 0 s)
      as [(k & E & Hk & Hstop & Hfree)|(E & _)]; [lia|exact LU| |].
    + rewrite (bind_returns _ _ _ _ _ E).
      unfold ret. intros H. injection H as <- _. intros o Ho W.
      assert (Hle : start + k <= MAX_MEMORY).
      { destruct (Z.eq_dec k 0) as [->|Hne]; [lia|].
        destruct (Hfree (k - 1)) as [Hb _]; lia. }
      destruct (Shift o ltac:(lia)) as [Sin Send].
      destruct (Z_lt_ge_dec (start + (o - offset)) MAX_MEMORY) as [Hin|Hout].
      * exfalso. rewrite (Sin Hin) in W.
        destruct (W (k - (o - offset))) as [Wb Wf]; [lia|].
        replace (start + (o - offset) + (k - (o - offset))) with (start + k)
          in Wb, Wf by lia.
        destruct Hstop as [Hstop|Hstop]; [lia|congruence].
      * split; [apply Send; lia|lia].
    + rewrite (bind_returns _ _ _ _ _ E).
      unfold bind. destruct (mark_loop _ _ _ s); try congruence.
      unfold ret. congruence.
Qed.

Lemma search_loop_exits_skipped (n search_start_address : Z) (fuel : nat) :
  forall (offset status : Z) (s s' : state),
    0 <= search_start_address -> 0 <= offset ->
    length (MEMORY_USED s) = Z.to_nat MAX_MEMORY ->
    length (MEMORY_IS_POINTER s) = Z.to_nat MAX_MEMORY ->
    -2 < n ->
    search_loop MAX_MEMORY fuel n search_start_address offset s
      = Exits status s' ->
    forall o, offset <= o < MAX_MEMORY ->
      window_free MAX_MEMORY (MEMORY_USED s)
                  (Z.rem (search_start_address + o) MAX_MEMORY) n ->
      Z.rem (search_start_address + o) MAX_MEMORY = 0 /\ 0 < o.
Proof.
  induction fuel as [|fuel IH];
    intros offset status s s' Hssa Hoff LU LP Hn E o Ho W.
  - cbn [search_loop] in E.
    destruct (Z.ltb_spec offset MAX_MEMORY); [discriminate E|lia].
  - cbn [search_loop] in E.
    destruct (Z.ltb_spec offset MAX_MEMORY); [|lia].
    destruct (search_body_spec MAX_MEMORY MAX_MEMORY_pos n search_start_address
                offset s Hssa Hoff LU LP)
      as [(offset' & Eb & Hinc & _)|(t & Eb & _)].
    + rewrite (bind_returns _ _ _ _ _ Eb) in E.
      destruct (Z_lt_ge_dec o offset') as [Hskip|Hlater].
      * destruct (search_body_skips n search_start_address offset offset' s s
                    Hssa Hoff LU Hn Eb o ltac:(lia) W) as [Hz Hgt].
        split; [exact Hz|lia].
      * exact (IH offset' status s s' Hssa ltac:(lia) LU LP Hn E o ltac:(lia) W).
    + rewrite (bind_returns _ _ _ _ _ Eb) in E. discriminate E.
Qed.

End Skipped.

(** X11: the scan of my_malloc can miss a fit at position 0 only.  If
    the call ends in exit(1), no position other than 0 has a free window,
    and position 0 has one only if the random start was not 0; hence
    whenever some position other than 0 has a free window the call
    returns a block. *)
Theorem my_malloc_misses_only_position_zero (MAX_MEMORY size : Z) (s : state) :
  well_formed MAX_MEMORY s ->
  0 < size ->
  (forall status s',
     my_malloc MAX_MEMORY size s = Exits status s' ->
     forall p, 0 <= p < MAX_MEMORY ->
       window_free MAX_MEMORY (MEMORY_USED s) p (slots_of size) ->
       p = 0 /\ Z.rem (rand_tape s (rand_pos s)) MAX_MEMORY <> 0) /\
  ((exists p, 0 < p < MAX_MEMORY /\
      window_free MAX_MEMORY (MEMORY_USED s) p (slots_of size)) ->
   exists h s', my_malloc MAX_MEMORY size s = Returns h s').
Proof.
  intros WF Hsize.
  pose proof (slots_of_pos size Hsize) as Hn.
  pose proof WF as (HM & LB & LU & LP & Hr).
  assert (Hssa : 0 <= Z.rem (rand_tape s (rand_pos s)) MAX_MEMORY).
  { apply Z.rem_nonneg; [lia|apply Hr]. }
  assert (Miss : forall status s',
     my_malloc MAX_MEMORY size s = Exits status s' ->
     forall p, 0 <= p < MAX_MEMORY ->
       window_free MAX_MEMORY (MEMORY_USED s) p (slots_of size) ->
       p = 0 /\ Z.rem (rand_tape s (rand_pos s)) MAX_MEMORY <> 0).
  { intros status s' E p Hp W.
    unfold my_malloc in E. fold (slots_of size) in E.
    unfold bind at 1, rand at 1 in E.
    set (s0 := mkState _ _ _ _ _ _) in E.
    destruct (rem_reaches (Z.rem (rand_tape s (rand_pos s)) MAX_MEMORY) p
                MAX_MEMORY Hssa Hp) as (o & Ho & Hpo).
    pose proof (search_loop_exits_skipped MAX_MEMORY HM (slots_of size)
                  _ _ 0 status s0 s' Hssa (Z.le_refl 0) LU LP ltac:(lia) E
                  o ltac:(lia)) as Skip.
    unfold s0 in Skip. cbn [MEMORY_USED] in Skip. rewrite Hpo in Skip.
    destruct (Skip W) as [Hz Hgt]. split; [exact Hz|].
    intros Hzero. rewrite Hzero, Z.add_0_l in Hpo.
    rewrite Z.rem_small in Hpo by lia. lia. }
  split; [exact Miss|].
  intros (p & Hp & W).
  destruct (my_malloc_spec MAX_MEMORY HM size s WF)
    as [(st & s1 & E1 & _)|(s1 & E1 & _)]; [eauto|].
  exfalso. destruct (Miss 1 s1 E1 p ltac:(lia) W) as [Hz _]. lia.
Qed.

Lemma my_malloc_misses_only_position_zero_witness :
  exists h s', my_malloc 10 48 (startup 10 (fun _ => 5)) = Returns h s'.
Proof.
  apply (proj2 (my_malloc_misses_only_position_zero 10 48
                  (startup 10 (fun _ => 5))
                  (startup_well_formed 10 5 eq_refl ltac:(lia)) eq_refl)).
  exists 1. split; [lia|]. intros i Hi.
  change (slots_of 48) with 6 in Hi.
  split; [lia|]. apply startup_all_free. lia.
Defined.

Section FirstFit.

Variable MAX_MEMORY : Z.
Hypothesis MAX_MEMORY_pos : 0 < MAX_MEMORY.

Lemma search_loop_returns_skipped (n search_start_address : Z) (fuel : nat) :
  forall (offset h : Z) (s s' : state),
    0 <= search_start_address -> 0 <= offset ->
    length (MEMORY_USED s) = Z.to_nat MAX_MEMORY ->
    length (MEMORY_IS_POINTER s) = Z.to_nat MAX_MEMORY ->
    -2 < n ->
    search_loop MAX_MEMORY fuel n search_start_address offset s = Returns h s' ->
    exists o, offset <= o < MAX_MEMORY /\
      h = Z.rem (search_start_address + o) MAX_MEMORY + 1 /\
      forall o', offset <= o' < o ->
        window_free MAX_MEMORY (MEMORY_USED s)
                    (Z.rem (search_start_address + o') MAX_MEMORY) n ->
        Z.rem (search_start_address + o') MAX_MEMORY = 0 /\ 0 < o'.
Proof.
  induction fuel as [|fuel IH];
    intros offset h s s' Hssa Hoff LU LP Hn E.
  - cbn [search_loop] in E.
    destruct (Z.ltb_spec offset MAX_MEMORY); discriminate E.
  - cbn [search_loop] in E.
    destruct (Z.ltb_spec offset MAX_MEMORY); [|discriminate E].
    destruct (search_body_spec MAX_MEMORY MAX_MEMORY_pos n search_start_address
                offset s Hssa Hoff LU LP)
      as [(offset' & Eb & Hinc & _)|(t & Eb & _)].
    + rewrite (bind_returns _ _ _ _ _ Eb) in E.
      destruct (IH offset' h s s' Hssa ltac:(lia) LU LP Hn E)
        as (o & Ho & Hh & Hskip).
      exists o. split; [lia|]. split; [exact Hh|].
      intros o' Ho' W.
      destruct (Z_lt_ge_dec o' offset') as [Hjump|Hlater].
      * destruct (search_body_skips MAX_MEMORY MAX_MEMORY_pos n
                    search_start_address offset offset' s s
                    Hssa Hoff LU Hn Eb o' ltac:(lia) W) as [Hz Hgt].
        split; [exact Hz|lia].
      * apply Hskip; [lia|exact W].
    + rewrite (bind_returns _ _ _ _ _ Eb) in E.
      unfold ret in E. injection E as <- _.
      exists offset. split; [lia|]. split; [reflexivity|].
      intros o' Ho'. lia.
Qed.

End FirstFit.

(** X12: my_malloc is first fit in scan order from the random start:
    the block it returns lies behind position (r + o) % MAX_MEMORY for
    r = rand() % MAX_MEMORY and some o below MAX_MEMORY, and none of the
    positions belonging to a smaller o has a free window, except that
    position 0 is passed over when the scan reaches it after its first
    step. *)
Theorem my_malloc_first_fit (MAX_MEMORY size h : Z) (s s' : state) :
  well_formed MAX_MEMORY s ->
  0 < size ->
  my_malloc MAX_MEMORY size s = Returns h s' ->
  let r := Z.rem (rand_tape s (rand_pos s)) MAX_MEMORY in
  exists o, 0 <= o < MAX_MEMORY /\
    h = Z.rem (r + o) MAX_MEMORY + 1 /\
    window_free MAX_MEMORY (MEMORY_USED s) (Z.rem (r + o) MAX_MEMORY)
                (slots_of size) /\
    forall o', 0 <= o' < o ->
      window_free MAX_MEMORY (MEMORY_USED s) (Z.rem (r + o') MAX_MEMORY)
                  (slots_of size) ->
      Z.rem (r + o') MAX_MEMORY = 0 /\ 0 < o'.
Proof.
  intros WF Hsize E r.
  pose proof (slots_of_pos size Hsize) as Hn.
  pose proof WF as (HM & LB & LU & LP & Hr).
  assert (Hssa : 0 <= r) by (apply Z.rem_nonneg; [lia|apply Hr]).
  destruct (my_malloc_spec MAX_MEMORY HM size s WF)
    as [(st & s1 & E1 & _ & _ & W & _)|(s1 & E1 & _)]; [|congruence].
  rewrite E in E1. injection E1 as -> _.
  unfold my_malloc in E. fold (slots_of size) in E.
  unfold bind at 1, rand at 1 in E. fold r in E.
  set (s0 := mkState _ _ _ _ _ _) in E.
  destruct (search_loop_returns_skipped MAX_MEMORY HM (slots_of size) r _
              0 (st + 1) s0 s' Hssa (Z.le_refl 0) LU LP ltac:(lia) E)
    as (o & Ho & Hh & Hskip).
  exists o. split; [exact Ho|]. split; [exact Hh|].
  split; [replace (Z.rem (r + o) MAX_MEMORY) with st by lia; exact W|].
  exact Hskip.
Qed.

Lemma my_malloc_first_fit_witness :
  exists o, 0 <= o < 10 /\ 7 = Z.rem (2 + o) 10 + 1 /\
    window_free 10 (MEMORY_USED allocated10) (Z.rem (2 + o) 10) (slots_of 8).
Proof.
  assert (E : exists s', my_malloc 10 8 allocated10 = Returns 7 s')
    by (eexists; vm_compute; reflexivity).
  destruct E as [s' E].
  destruct (my_malloc_first_fit 10 8 7 allocated10 s' allocated10_well_formed
              eq_refl E) as (o & Ho & Hh & W & _).
  exists o. split; [exact Ho|]. split; [exact Hh|exact W].
Defined.

(** ** Counting the used slots *)

Lemma count_used_insert (a : list bool) :
  forall (i : nat) (b b' : bool),
    a !! i = Some b ->
    count_used (<[i := b']> a)
      = count_used a - (if b then 1 else 0) + (if b' then 1 else 0).
Proof.
  induction a as [|x a IH]; intros i b b' Hi; [discriminate Hi|].
  destruct i as [|i].
  - simpl in Hi. injection Hi as ->. simpl. lia.
  - simpl in Hi. simpl. rewrite (IH i b b' Hi). lia.
Qed.

Lemma count_used_updated_on (k : nat) :
  forall (a a' : list bool) (lo : Z) (v w : bool),
    0 <= lo ->
    lo + Z.of_nat k <= Z.of_nat (length a) ->
    updated_on a a' lo (lo + Z.of_nat k) v ->
    (forall j, lo <= j < lo + Z.of_nat k -> rd a j = Some w) ->
    count_used a'
      = count_used a + Z.of_nat k * ((if v then 1 else 0) - (if w then 1 else 0)).
Proof.
  induction k as [|k IH]; intros a a' lo v w Hlo Hhi U Hw.
  - rewrite (updated_on_empty a a' lo (lo + Z.of_nat 0) v) by (lia || exact U).
    lia.
  - pose proof (wr_in_bounds a lo v ltac:(lia)) as Ew.
    pose proof (updated_on_wr _ _ _ _ Ew) as (L1 & I1 & O1).
    destruct U as (L & UI & UO).
    rewrite (IH (<[Z.to_nat lo := v]> a) a' (lo + 1) v w).
    + rewrite (count_used_insert a (Z.to_nat lo) w v).
      * lia.
      * specialize (Hw lo ltac:(lia)). unfold rd in Hw.
        destruct (Z.leb_spec 0 lo); [exact Hw|lia].
    + lia.
    + rewrite length_insert. lia.
    + split; [rewrite length_insert; exact L|]. split.
      * intros j Hj. apply UI. lia.
      * intros j Hj. destruct (Z.eq_dec j lo) as [->|Hne].
        -- rewrite I1 by lia. apply UI. lia.
        -- rewrite O1 by lia. apply UO. lia.
    + intros j Hj. rewrite O1 by lia. apply Hw. lia.
Qed.

(** X13: a successful my_malloc raises the number of used slots by
    exactly ceil(size/8); my_free on a handle inside the arena never
    raises it, and lowers it by the number of slots from the handle up
    to the first free slot or the end of the arena. *)
Theorem used_count_accounting (MAX_MEMORY : Z) (s : state) :
  well_formed MAX_MEMORY s ->
  (forall size h s',
     0 < size ->
     my_malloc MAX_MEMORY size s = Returns h s' ->
     count_used (MEMORY_USED s') = count_used (MEMORY_USED s) + slots_of size) /\
  (forall ptr,
     0 <= ptr ->
     exists stop s',
       my_free MAX_MEMORY ptr s = Returns tt s' /\
       ptr <= stop /\
       (forall j, ptr <= j < stop -> rd (MEMORY_USED s) j = Some true) /\
       (MAX_MEMORY <= stop \/ rd (MEMORY_USED s) stop = Some false) /\
       count_used (MEMORY_USED s') = count_used (MEMORY_USED s) - (stop - ptr)).
Proof.
  intros WF. pose proof WF as (HM & LB & LU & LP & Hr). split.
  - intros size h s' Hsize E.
    pose proof (slots_of_pos size Hsize) as Hn.
    destruct (my_malloc_spec MAX_MEMORY HM size s WF)
      as [(st & s1 & E1 & Hst & _ & W & _ & _ & _ & _ & U & _)|(s1 & E1 & _)];
      [|congruence].
    rewrite E in E1. injection E1 as _ <-.
    destruct (W (slots_of size + 1)) as [Wb _]; [lia|].
    rewrite (count_used_updated_on (Z.to_nat (slots_of size))
               (MEMORY_USED s) (MEMORY_USED s') (st + 1) true false).
    + lia.
    + lia.
    + lia.
    + eapply updated_on_same_range; [|exact U]. intros j. lia.
    + intros j Hj. replace j with (st + (j - st)) by lia. apply W. lia.
  - intros ptr Hptr.
    destruct (my_free_spec MAX_MEMORY ptr s Hptr LU)
      as (stop & s' & E & Hstop & Hrun & Hend & _ & _ & U).
    exists stop, s'. split; [exact E|]. split; [lia|].
    split; [exact Hrun|]. split; [exact Hend|].
    destruct (Z.eq_dec stop ptr) as [->|Hne].
    { rewrite (updated_on_empty _ _ _ _ _ (Z.le_refl ptr) U). lia. }
    pose proof (rd_Some_bounds _ _ _ (Hrun ptr ltac:(lia))) as Hb.
    rewrite (count_used_updated_on (Z.to_nat (stop - ptr))
               (MEMORY_USED s) (MEMORY_USED s') ptr false true).
    + lia.
    + lia.
    + lia.
    + eapply updated_on_same_range; [|exact U]. intros j. lia.
    + intros j Hj. apply Hrun. lia.
Qed.

Lemma used_count_accounting_witness :
  count_used (MEMORY_USED allocated10) = count_used (MEMORY_USED fresh10) + 3.
Proof.
  exact (proj1 (used_count_accounting 10 fresh10
                  (startup_well_formed 10 2 eq_refl (Z.le_0_2)))
               24 3 allocated10 eq_refl eq_refl).
Defined.
